(** * TensorFlow Datasets core: checksum registry and dataset builder

    A shallow embedding of
      - [tensorflow_datasets/core/download/checksums_management.py]
      - [tensorflow_datasets/core/dataset_builder.py]
    and the properties of the specification that concern them.

    Python state (module globals, memoisation caches, the file system,
    the log) is threaded explicitly through a small state-and-exception
    monad; dictionaries are [gmap]s; integers are [Z]; [str] is [string]. *)

From Stdlib Require Import ZArith String Ascii Decimal DecimalString DecimalZ.
From stdpp Require Import base option list sorting gmap strings.

Local Open Scope Z_scope.

(** ** Python primitives *)

Module Py.

(** Exceptions raised by the modelled code. *)
Inductive exn :=
| AssertionError (msg : string)
| ValueError (msg : string)
| NotFoundError (path : string).

Inductive result (A : Type) :=
| Ok (a : A)
| Raise (e : exn).
Arguments Ok {A} a.
Arguments Raise {A} e.

Definition is_Ok {A} (r : result A) : bool :=
  match r with Ok _ => true | Raise _ => false end.

(** State and exception monad: a raised exception keeps the state the
    computation had reached. *)
Definition M (S A : Type) : Type := S → result A * S.

Definition ret {S A} (a : A) : M S A := λ s, (Ok a, s).
Definition raise {S A} (e : exn) : M S A := λ s, (Raise e, s).
Definition bind {S A B} (m : M S A) (k : A → M S B) : M S B :=
  λ s, match m s with
       | (Ok a, s') => k a s'
       | (Raise e, s') => (Raise e, s')
       end.
Definition get {S} : M S S := λ s, (Ok s, s).
Definition modify {S} (f : S → S) : M S unit := λ s, (Ok tt, f s).
Definition lift {S A} (r : result A) : M S A := λ s, (r, s).

(** Characters used by the line format. *)
Definition nl : ascii := ascii_of_nat 10.
Definition sp : ascii := " "%char.

(** Every character of [s] satisfies [P]. *)
Fixpoint string_forall (P : ascii → bool) (s : string) : bool :=
  match s with
  | EmptyString => true
  | String a s' => P a && string_forall P s'
  end.

(** [c in s] for a one-character [c]. *)
Fixpoint contains (c : ascii) (s : string) : bool :=
  match s with
  | EmptyString => false
  | String a s' => if Ascii.eqb a c then true else contains c s'
  end.

(** [s.split(sep)] for a one-character separator: never empty. *)
Fixpoint split (sep : ascii) (s : string) : list string :=
  match s with
  | EmptyString => [EmptyString]
  | String a s' =>
      if Ascii.eqb a sep then EmptyString :: split sep s'
      else match split sep s' with
           | piece :: pieces => String a piece :: pieces
           | [] => [String a EmptyString]
           end
  end.

(** [s.rsplit(sep, 1)] when it splits: the text before and after the
    last separator. *)
Fixpoint rsplit1 (sep : ascii) (s : string) : option (string * string) :=
  match s with
  | EmptyString => None
  | String a s' =>
      match rsplit1 sep s' with
      | Some (before, after) => Some (String a before, after)
      | None => if Ascii.eqb a sep then Some (EmptyString, s') else None
      end
  end.

(** [s.rsplit(sep, 2)]: at most two splits, scanning from the right. *)
Definition rsplit2 (sep : ascii) (s : string) : list string :=
  match rsplit1 sep s with
  | None => [s]
  | Some (rest, last) =>
      match rsplit1 sep rest with
      | None => [rest; last]
      | Some (first, middle) => [first; middle; last]
      end
  end.

(** [sep.join(l)]. *)
Fixpoint join (sep : string) (l : list string) : string :=
  match l with
  | [] => EmptyString
  | [x] => x
  | x :: rest => x +:+ sep +:+ join sep rest
  end.

(** [str(n)] for an [int]. *)
Definition str_int (n : Z) : string := NilZero.string_of_int (Z.to_int n).

(** ASCII white space, as stripped by [int(s)]. *)
Definition is_space (a : ascii) : bool :=
  let n := nat_of_ascii a in
  ((9 <=? n)%nat && (n <=? 13)%nat) || (n =? 32)%nat
  || ((28 <=? n)%nat && (n <=? 31)%nat).

Fixpoint lstrip (s : string) : string :=
  match s with
  | String a s' => if is_space a then lstrip s' else s
  | EmptyString => EmptyString
  end.

Fixpoint rstrip (s : string) : string :=
  match s with
  | EmptyString => EmptyString
  | String a s' =>
      match rstrip s' with
      | EmptyString => if is_space a then EmptyString else String a EmptyString
      | t => String a t
      end
  end.

Definition strip (s : string) : string := rstrip (lstrip s).

Definition is_digit (a : ascii) : bool :=
  let n := nat_of_ascii a in (48 <=? n)%nat && (n <=? 57)%nat.

(** Digit groups of an integer literal: single underscores are allowed
    between digits only. [prev] tells whether the previous character
    was a digit. *)
Fixpoint drop_underscores (prev : bool) (s : string) : option string :=
  match s with
  | EmptyString => if prev then Some EmptyString else None
  | String a s' =>
      if Ascii.eqb a "_"%char then
        if prev then drop_underscores false s' else None
      else if is_digit a then
        String a <$> drop_underscores true s'
      else None
  end.

Definition int_digits (s : string) : option Z :=
  digits ← drop_underscores false s;
  d ← NilZero.uint_of_string digits;
  Some (Z.of_uint d).

(** [int(s)] for a [str]: optional white space around an optional
    sign and decimal digits; [None] stands for [ValueError]. *)
Definition int (s : string) : option Z :=
  match strip s with
  | String a s' =>
      if Ascii.eqb a "-"%char then Z.opp <$> int_digits s'
      else if Ascii.eqb a "+"%char then int_digits s'
      else int_digits (String a s')
  | EmptyString => None
  end.

End Py.

Import Py.

Notation "'let*' x ':=' m 'in' k" := (Py.bind m (λ x, k))
  (at level 10, x name, m at level 100, k at level 200, only parsing).
Notation "'run' m 'then' k" := (Py.bind m (λ _ : unit, k))
  (at level 10, m at level 100, k at level 200, only parsing).

(** ** checksums_management.py *)

Module checksums_management.

(** A checksum dictionary [{url: (size, checksum)}]. *)
Abbreviation SizesChecksums := (gmap string (Z * string)).

(** Module globals, the caches of the [@utils.memoize()] decorators and
    the files the module reads and writes. *)
Record state := {
  (** file system: path to file content *)
  files : gmap string string;
  _CHECKSUM_DIRS : list string;
  (** the memoised value of [_get_dataset_to_path()]: the dictionary
      from dataset name to checksum file that the scan of the checksum
      directories yields, in insertion order *)
  dataset2path : list (string * string);
  _REGISTER_CHECKSUMS : bool;
  _ALL_SIZE_CHECKSUMS : SizesChecksums;
  (** cache of [_get_sizes_checksums], keyed by its argument *)
  memo_get_sizes_checksums : gmap string SizesChecksums;
  (** whether [get_all_sizes_checksums] has a cached result; the cached
      object is [_ALL_SIZE_CHECKSUMS] itself *)
  memo_get_all_sizes_checksums : bool
}.

Definition set_files f (s : state) : state :=
  {| files := f; _CHECKSUM_DIRS := _CHECKSUM_DIRS s;
     dataset2path := dataset2path s;
     _REGISTER_CHECKSUMS := _REGISTER_CHECKSUMS s;
     _ALL_SIZE_CHECKSUMS := _ALL_SIZE_CHECKSUMS s;
     memo_get_sizes_checksums := memo_get_sizes_checksums s;
     memo_get_all_sizes_checksums := memo_get_all_sizes_checksums s |}.

Definition set_register (b : bool) (s : state) : state :=
  {| files := files s; _CHECKSUM_DIRS := _CHECKSUM_DIRS s;
     dataset2path := dataset2path s;
     _REGISTER_CHECKSUMS := b;
     _ALL_SIZE_CHECKSUMS := _ALL_SIZE_CHECKSUMS s;
     memo_get_sizes_checksums := memo_get_sizes_checksums s;
     memo_get_all_sizes_checksums := memo_get_all_sizes_checksums s |}.

Definition set_all (a : SizesChecksums) (s : state) : state :=
  {| files := files s; _CHECKSUM_DIRS := _CHECKSUM_DIRS s;
     dataset2path := dataset2path s;
     _REGISTER_CHECKSUMS := _REGISTER_CHECKSUMS s;
     _ALL_SIZE_CHECKSUMS := a;
     memo_get_sizes_checksums := memo_get_sizes_checksums s;
     memo_get_all_sizes_checksums := memo_get_all_sizes_checksums s |}.

Definition set_memo_sizes (c : gmap string SizesChecksums) (s : state) : state :=
  {| files := files s; _CHECKSUM_DIRS := _CHECKSUM_DIRS s;
     dataset2path := dataset2path s;
     _REGISTER_CHECKSUMS := _REGISTER_CHECKSUMS s;
     _ALL_SIZE_CHECKSUMS := _ALL_SIZE_CHECKSUMS s;
     memo_get_sizes_checksums := c;
     memo_get_all_sizes_checksums := memo_get_all_sizes_checksums s |}.


(** [set_register_checksums(register=False)] *)
Definition set_register_checksums (register : bool) : M state unit :=
  modify (set_register register).




(** [_read_file(path)] *)
Definition _read_file (path : string) : M state string :=
  let* s := get in
  match files s !! path with
  | Some content => ret content
  | None => raise (NotFoundError path)
  end.

(** The loop of [_get_sizes_checksums] over the lines of the file. *)
Fixpoint parse_lines (lines : list string) (checksums : SizesChecksums)
  : result SizesChecksums :=
  match lines with
  | [] => Ok checksums
  | line :: rest =>
      match line with
      | EmptyString => parse_lines rest checksums
      | _ =>
          match rsplit2 sp line with
          | [url; size; checksum] =>
              match int size with
              | Some n => parse_lines rest (<[url := (n, checksum)]> checksums)
              | None => Raise (ValueError "invalid literal for int() with base 10")
              end
          | _ => Raise (ValueError "not enough values to unpack (expected 3)")
          end
      end
  end.

(** The body of [_get_sizes_checksums], on the content read. *)
Definition parse_checksums (content : string) : result SizesChecksums :=
  parse_lines (split nl content) ∅.

(** Modelled from the spec: [utils.memoize()], the process-wide cache of
    the results of a function, by argument. A cached result is returned
    without running the function again, and a call that raises caches
    nothing. *)
Definition memoize {V} (cache : state → gmap string V)
    (set_cache : gmap string V → state → state)
    (fn : string → M state V) (arg : string) : M state V :=
  let* s := get in
  match cache s !! arg with
  | Some cached => ret cached
  | None =>
      let* value := fn arg in
      run modify (λ s, set_cache (<[arg := value]> (cache s)) s) then
      ret value
  end.

(** [_get_sizes_checksums(checksums_path)], under [@utils.memoize()]. *)
Definition _get_sizes_checksums : string → M state SizesChecksums :=
  memoize memo_get_sizes_checksums set_memo_sizes
    (λ checksums_path,
       let* content := _read_file checksums_path in
       lift (parse_checksums content)).





(** Order of [sorted(new_data.items())]: the keys of a dictionary are
    distinct, so tuples are ordered by their URL. *)
Definition item_le (x y : string * (Z * string)) : Prop :=
  String.le x.1 y.1.

Global Instance item_le_dec : RelDecision item_le.
Proof. intros x y. unfold item_le. apply _. Defined.

Definition sorted_items (d : SizesChecksums) : list (string * (Z * string)) :=
  merge_sort item_le (map_to_list d).

(** ['%s %s %s\n' % (url, size, checksum)] *)
Definition format_line (item : string * (Z * string)) : string :=
  item.1 +:+ String sp (str_int item.2.1 +:+ String sp (item.2.2 +:+ String nl EmptyString)).

Fixpoint write_lines (items : list (string * (Z * string))) : string :=
  match items with
  | [] => EmptyString
  | item :: rest => format_line item +:+ write_lines rest
  end.



(** What the checksum file at [path] holds, when it exists and parses. *)
Definition file_checksums (s : state) (path : string) : option SizesChecksums :=
  content ← files s !! path;
  match parse_checksums content with
  | Ok checksums => Some checksums
  | Raise _ => None
  end.

(** The cache of [_get_sizes_checksums] holds nothing for [path] that
    differs from the file: no file was rewritten behind the cache. *)
Definition cache_coherent (s : state) (path : string) : Prop :=
  match memo_get_sizes_checksums s !! path with
  | Some cached => file_checksums s path = Some cached
  | None => True
  end.




(** The fields of a written line survive a reading: no newline in the
    URL, neither newline nor space in the checksum. *)
Definition writable (url : string) (tuple : Z * string) : Prop :=
  contains nl url = false
  ∧ contains nl tuple.2 = false
  ∧ contains sp tuple.2 = false.

End checksums_management.

(** ** dataset_builder.py *)

Module dataset_builder.

(** *** Collaborators declared outside the two modelled files *)

(** Modelled from the spec: [download.GenerateMode], of which the
    builder names three members. *)
Inductive GenerateMode :=
| REUSE_DATASET_IF_EXISTS
| REUSE_CACHE_IF_EXISTS
| FORCE_REDOWNLOAD.

Global Instance GenerateMode_eq_dec : EqDecision GenerateMode.
Proof. solve_decision. Defined.

(** Modelled from the spec: [download.ComputeStatsMode]. *)
Inductive ComputeStatsMode := AUTO | FORCE | SKIP.

Global Instance ComputeStatsMode_eq_dec : EqDecision ComputeStatsMode.
Proof. solve_decision. Defined.

(** [str(mode)] of the enumeration. *)
Definition ComputeStatsMode_str (mode : ComputeStatsMode) : string :=
  match mode with
  | AUTO => "ComputeStatsMode.AUTO"
  | FORCE => "ComputeStatsMode.FORCE"
  | SKIP => "ComputeStatsMode.SKIP"
  end.

(** Modelled from the spec: the fields of [download.DownloadConfig] that
    the builder reads. *)
Record DownloadConfig := {
  extract_dir : option string;
  manual_dir : option string;
  download_mode : GenerateMode;
  compute_stats : ComputeStatsMode;
  max_examples_per_split : option Z
}.

(** Modelled from the spec: [utils.Version], a three-component semantic
    version (major.minor.patch) with the total order of its components. *)
Record Version := { major : N; minor : N; patch : N }.

Global Instance Version_eq_dec : EqDecision Version.
Proof. solve_decision. Defined.

Definition str_N (n : N) : string := NilZero.string_of_uint (N.to_uint n).

(** [str(version)] *)
Definition Version_str (v : Version) : string :=
  str_N (major v) +:+ "." +:+ str_N (minor v) +:+ "." +:+ str_N (patch v).

Definition parse_component (s : string) : option N :=
  N.of_uint <$> NilZero.uint_of_string s.

(** [utils.Version(s)] for a string: [None] stands for [ValueError]. *)
Definition Version_parse (s : string) : option Version :=
  match split "."%char s with
  | [a; b; c] =>
      x ← parse_component a; y ← parse_component b; z ← parse_component c;
      Some {| major := x; minor := y; patch := z |}
  | _ => None
  end.

Definition Version_compare (v w : Version) : comparison :=
  match N.compare (major v) (major w) with
  | Eq => match N.compare (minor v) (minor w) with
          | Eq => N.compare (patch v) (patch w)
          | c => c
          end
  | c => c
  end.

Definition Version_le (v w : Version) : Prop := Version_compare v w ≠ Gt.

(** Order of the tuples [(utils.Version(dir_name), dir_name)]. *)
Definition tuple_compare (x y : Version * string) : comparison :=
  match Version_compare x.1 y.1 with
  | Eq => String.compare x.2 y.2
  | c => c
  end.

(** [x >= y], the order of [list.sort(reverse=True)]. *)
Definition tuple_ge (x y : Version * string) : Prop := tuple_compare x y ≠ Lt.

Global Instance tuple_ge_dec x y : Decision (tuple_ge x y).
Proof. unfold tuple_ge. solve_decision. Defined.

(** Lexicographic comparison of pairs, and the tuples above as nested
    pairs of their components. *)
Definition lex_compare {A B} (c1 : A → A → comparison) (c2 : B → B → comparison)
    (x y : A * B) : comparison :=
  match c1 x.1 y.1 with
  | Eq => c2 x.2 y.2
  | c => c
  end.

Definition tuple_key (x : Version * string) : N * (N * (N * string)) :=
  (major x.1, (minor x.1, (patch x.1, x.2))).

(** A comparison that decides equality and whose [Lt] is a strict order. *)
Class CompareOrder {A} (c : A → A → comparison) : Prop := {
  compare_flip x y : c y x = CompOpp (c x y);
  compare_Eq x y : c x y = Eq → x = y;
  compare_Lt_trans x y z : c x y = Lt → c y z = Lt → c x z = Lt
}.

(** Modelled from the spec: [SplitInfo], the name, shard count and
    example count of a split. *)
Record SplitInfo := {
  split_name : string;
  num_shards : nat;
  num_examples : Z
}.

Global Instance SplitInfo_eq_dec : EqDecision SplitInfo.
Proof. solve_decision. Defined.

(** Modelled from the spec: [SplitDict], a mapping from split name to
    [SplitInfo]. *)
Abbreviation SplitDict := (gmap string SplitInfo).

(** [splits_lib.Split.ALL], the reserved alias of the union of all splits. *)
Definition ALL : string := "all".

(** Modelled from the spec: [SplitDict.add] fails on the reserved alias
    and otherwise inserts, overwriting an entry of the same name. *)
Definition SplitDict_add (d : SplitDict) (s : SplitInfo) : result SplitDict :=
  if String.eqb (split_name s) ALL
  then Raise (ValueError "Split all cannot be added to the split dictionary")
  else Ok (<[split_name s := s]> d).

(** [SplitDict.total_num_examples] *)
Definition total_num_examples (d : SplitDict) : Z :=
  foldr (λ kv acc, num_examples kv.2 + acc) 0 (map_to_list d).

(** Modelled from the spec: the persisted metadata document, with the
    attributes of [DatasetInfo] that the builder reads and writes. *)
Record DatasetInfo := {
  version : Version;
  splits : SplitDict;
  size_in_bytes : Z
}.

(** Modelled from the spec: the download manager, consumed through its
    constructor arguments and the total of bytes transferred. *)
Record DownloadManager := {
  dataset_name : string;
  download_dir : string;
  dm_extract_dir : string;
  dm_manual_dir : string;
  force_download : bool;
  force_extraction : bool
}.

(** [BuilderConfig] *)
Record BuilderConfig := {
  config_name : string;
  config_version : option Version;
  config_description : option string
}.

(** A finite lazy sequence that may end by raising. *)
Record generator (A : Type) := {
  yields : list A;
  raises : option exn
}.
Arguments yields {A} g.
Arguments raises {A} g.

(** [os.path.join(a, b)] of posixpath. *)
Definition ends_with_sep (s : string) : bool :=
  match String.rev s with
  | String a _ => Ascii.eqb a "/"%char
  | EmptyString => false
  end.

Definition path_join (a b : string) : string :=
  match b with
  | String c _ =>
      if Ascii.eqb c "/"%char then b
      else match a with
           | EmptyString => b
           | _ => if ends_with_sep a then a +:+ b else a +:+ "/" +:+ b
           end
  | EmptyString =>
      match a with
      | EmptyString => b
      | _ => if ends_with_sep a then a else a +:+ "/"
      end
  end.

(** [x or y] on an optional string: [None] and the empty string are falsy. *)
Definition str_or (x : option string) (y : string) : string :=
  match x with
  | Some (String a s) => String a s
  | _ => y
  end.

(** *** The storage backend ([tf.io.gfile]) *)

(** Paths that exist. *)
Abbreviation FS := (gset string).

Definition gfile_exists (fs : FS) (path : string) : bool :=
  bool_decide (path ∈ fs).

(** The text of [path] below the directory [dir], when there is one. *)
Fixpoint strip_prefix (pre s : string) : option string :=
  match pre, s with
  | EmptyString, _ => Some s
  | String a pre', String b s' =>
      if Ascii.eqb a b then strip_prefix pre' s' else None
  | String _ _, EmptyString => None
  end.

Definition below (dir path : string) : option string :=
  match strip_prefix dir path with
  | Some (String a rest) =>
      if ends_with_sep dir then Some (String a rest)
      else if Ascii.eqb a "/"%char
           then match rest with EmptyString => None | _ => Some rest end
           else None
  | _ => None
  end.

(** [tf.io.gfile.listdir(dir)]: the names of its direct entries. *)
Definition gfile_listdir (fs : FS) (dir : string) : list string :=
  omap (λ path, match below dir path with
                | Some name => if contains "/"%char name then None else Some name
                | None => None
                end) (elements fs).

(** The proper prefixes of a path that end before a separator, and the
    path itself. *)
Fixpoint path_prefixes (pre s : string) : list string :=
  match s with
  | EmptyString => match pre with EmptyString => [] | _ => [pre] end
  | String a s' =>
      if Ascii.eqb a "/"%char
      then match pre with
           | EmptyString => path_prefixes "/" s'
           | _ => pre :: path_prefixes (pre +:+ "/") s'
           end
      else path_prefixes (pre +:+ String a EmptyString) s'
  end.

Definition fs_makedirs (fs : FS) (path : string) : FS :=
  list_to_set (path_prefixes EmptyString path) ∪ fs.

Definition inside (dir path : string) : bool :=
  bool_decide (path = dir) || bool_decide (is_Some (below dir path)).

Definition fs_rmtree (fs : FS) (dir : string) : FS :=
  filter (λ path, inside dir path = false) fs.

Definition moved (src dst path : string) : string :=
  match strip_prefix src path with
  | Some rest => if inside src path then dst +:+ rest else path
  | None => path
  end.

Definition fs_rename (fs : FS) (src dst : string) : FS :=
  set_map (moved src dst) fs.

(** *** The builder and the state it runs in *)

Section builder.
Context {Example Encoded Kwargs : Type}.

(** Modelled from the spec: a generation unit, one generator bound to
    [gen_kwargs] that feeds the splits of [split_info_list]. *)
Record SplitGenerator := {
  split_info_list : list SplitInfo;
  gen_kwargs : Kwargs
}.

(** Lines sent to [absl.logging] and to standard output. *)
Inductive LogRecord :=
| INFO (msg : string)
| WARNING (msg : string)
| STDOUT (msg : string).

(** Operations that change what is stored, in the order performed. *)
Inductive IO :=
| Makedirs (path : string)
| Rename (src dst : string)
| Rmtree (path : string)
| WriteFromGenerator (output_files : list string) (records : list Encoded)
| ComputeDynamicProperties
| WriteToDirectory (dir : string).

(** The storage backend, the log, and the attributes of the builder
    that change while it runs. *)
Record World := {
  fs : FS;
  (** metadata documents, by the directory that holds them *)
  persisted : gmap string DatasetInfo;
  log : list LogRecord;
  io : list IO;
  _data_dir : string;
  info : DatasetInfo;
  (** [dl_manager.downloaded_size] *)
  downloaded_size : Z
}.

(** The attributes fixed by lines 146 to 155 of the constructor, the
    methods a dataset overrides, and the injected collaborators. *)
Record Builder := {
  name : string;
  _version : Version;
  _builder_config : option BuilderConfig;
  _data_dir_root : string;
  (** [download.DownloadConfig()] *)
  default_DownloadConfig : DownloadConfig;
  (** [units.size_str] *)
  size_str : Z → string;
  (** [file_format_adapter.get_incomplete_path] *)
  get_incomplete_path : string → string;
  (** [self._file_format_adapter.filetype_suffix] *)
  filetype_suffix : string;
  (** [naming.filepaths_for_dataset_split(dataset_name, split,
      num_shards, data_dir, filetype_suffix)] *)
  filepaths_for_dataset_split :
    string → string → nat → string → string → list string;
  (** [_split_generators(dl_manager)], with the bytes it downloads *)
  _split_generators : DownloadManager → result (list SplitGenerator * Z);
  (** [_generate_examples], bound to its keyword arguments *)
  _generate_examples : Kwargs → generator Example;
  (** [self.info.features.encode_example] *)
  encode_example : Example → result Encoded
}.

Definition set_fs (f : FS) (w : World) : World :=
  {| fs := f; persisted := persisted w; log := log w; io := io w;
     _data_dir := _data_dir w; info := info w;
     downloaded_size := downloaded_size w |}.

Definition set_persisted (p : gmap string DatasetInfo) (w : World) : World :=
  {| fs := fs w; persisted := p; log := log w; io := io w;
     _data_dir := _data_dir w; info := info w;
     downloaded_size := downloaded_size w |}.

Definition set_log (l : list LogRecord) (w : World) : World :=
  {| fs := fs w; persisted := persisted w; log := l; io := io w;
     _data_dir := _data_dir w; info := info w;
     downloaded_size := downloaded_size w |}.

Definition set_io (l : list IO) (w : World) : World :=
  {| fs := fs w; persisted := persisted w; log := log w; io := l;
     _data_dir := _data_dir w; info := info w;
     downloaded_size := downloaded_size w |}.

Definition set_data_dir (d : string) (w : World) : World :=
  {| fs := fs w; persisted := persisted w; log := log w; io := io w;
     _data_dir := d; info := info w;
     downloaded_size := downloaded_size w |}.

Definition set_info (i : DatasetInfo) (w : World) : World :=
  {| fs := fs w; persisted := persisted w; log := log w; io := io w;
     _data_dir := _data_dir w; info := i;
     downloaded_size := downloaded_size w |}.

Definition set_downloaded_size (n : Z) (w : World) : World :=
  {| fs := fs w; persisted := persisted w; log := log w; io := io w;
     _data_dir := _data_dir w; info := info w;
     downloaded_size := n |}.

Definition logging (r : LogRecord) : M World unit :=
  modify (λ w, set_log (log w ++ [r]) w).

Definition perform (e : IO) : M World unit :=
  modify (λ w, set_io (io w ++ [e]) w).

(** [tf.io.gfile.makedirs(path)] *)
Definition gfile_makedirs (path : string) : M World unit :=
  run perform (Makedirs path) then
  modify (λ w, set_fs (fs_makedirs (fs w) path) w).

(** [tf.io.gfile.rename(src, dst)]: the metadata document moves with
    its directory. *)
Definition gfile_rename (src dst : string) : M World unit :=
  run perform (Rename src dst) then
  modify (λ w,
    set_persisted
      (match persisted w !! src with
       | Some doc => <[dst := doc]> (delete src (persisted w))
       | None => persisted w
       end)
      (set_fs (fs_rename (fs w) src dst) w)).

(** [tf.io.gfile.rmtree(path)] *)
Definition gfile_rmtree (path : string) : M World unit :=
  run perform (Rmtree path) then
  modify (λ w, set_persisted (delete path (persisted w))
                 (set_fs (fs_rmtree (fs w) path) w)).

Variable self : Builder.

(** The versions found under the builder directory, newest first:
    the local function [_other_versions_on_disk]. Names that are not
    versions raise [ValueError] in [utils.Version] and are passed over. *)
Definition _other_versions_on_disk (fs : FS) (builder_data_dir : string)
  : list (Version * string) :=
  if gfile_exists fs builder_data_dir then
    merge_sort tuple_ge
      (omap (λ dir_name, (λ v, (v, dir_name)) <$> Version_parse dir_name)
            (gfile_listdir fs builder_data_dir))
  else [].

Definition different_version_msg (other_version : Version) : string :=
  "Found a different version " +:+ Version_str other_version +:+
  " of dataset " +:+ name self +:+ " in data_dir " +:+ _data_dir_root self +:+
  ". Using currently defined version " +:+ Version_str (_version self) +:+ ".".

(** [_build_data_dir()] *)
Definition _build_data_dir : M World string :=
  let builder_data_dir := path_join (_data_dir_root self) (name self) in
  let builder_data_dir :=
    match _builder_config self with
    | Some builder_config => path_join builder_data_dir (config_name builder_config)
    | None => builder_data_dir
    end in
  let version := _version self in
  let version_data_dir := path_join builder_data_dir (Version_str version) in
  let* w := get in
  run match _other_versions_on_disk (fs w) builder_data_dir with
      | (other_version, _) :: _ =>
          if bool_decide (other_version ≠ _version self)
          then logging (WARNING (different_version_msg other_version))
          else ret tt
      | [] => ret tt
      end then
  ret version_data_dir.

(** The directory named [builder_data_dir] in [_build_data_dir], and
    the versions that the names of its entries parse to. *)
Definition builder_dir : string :=
  match _builder_config self with
  | Some builder_config =>
      path_join (path_join (_data_dir_root self) (name self))
        (config_name builder_config)
  | None => path_join (_data_dir_root self) (name self)
  end.

Definition versions_on_disk (fs : FS) : list Version :=
  omap Version_parse (gfile_listdir fs builder_dir).

(** Lines 156 to 162 of [__init__]. Reading the metadata document of
    a directory restores the attributes it holds; the pre-computed
    information of the bucket is outside the model. *)
Definition __init__ : M World unit :=
  let* data_dir := _build_data_dir in
  run modify (set_data_dir data_dir) then
  let* w := get in
  if gfile_exists (fs w) (_data_dir w) then
    run logging (INFO "Overwrite dataset info from restored data version.") then
    modify (λ w, match persisted w !! _data_dir w with
                 | Some doc => set_info doc w
                 | None => w
                 end)
  else
    logging (INFO "Load pre-computed datasetinfo (eg: splits) from bucket.").

(** [_make_download_manager(download_dir, download_config)] *)
Definition _make_download_manager (download_dir : option string)
    (download_config : DownloadConfig) : DownloadManager :=
  let download_dir :=
    str_or download_dir (path_join (_data_dir_root self) "downloads") in
  let extract_dir :=
    str_or (extract_dir download_config) (path_join download_dir "extracted") in
  let manual_dir :=
    str_or (manual_dir download_config) (path_join download_dir "manual") in
  let manual_dir := path_join manual_dir (name self) in
  {| dataset_name := name self;
     download_dir := download_dir;
     dm_extract_dir := extract_dir;
     dm_manual_dir := manual_dir;
     force_download :=
       bool_decide (download_mode download_config = FORCE_REDOWNLOAD);
     force_extraction :=
       bool_decide (download_mode download_config = FORCE_REDOWNLOAD) |}.

(** [_log_download_bytes()] *)
Definition _log_download_bytes : M World unit :=
  let* w := get in
  let size_text := size_str self (size_in_bytes (info w)) in
  logging (STDOUT ("Downloading / extracting dataset " +:+ name self +:+
                   " (" +:+ size_text +:+ ") to " +:+ _data_dir w +:+ "...")).

(** [max_examples_per_split and i >= max_examples_per_split]: [None]
    and [0] are falsy. *)
Definition cap_reached (max_examples_per_split : option Z) (i : Z) : bool :=
  match max_examples_per_split with
  | Some n => negb (n =? 0) && (n <=? i)
  | None => false
  end.

(** The loop of [generator_fn] over [enumerate(...)], from index [i]. *)
Fixpoint generator_loop (max_examples_per_split : option Z) (i : Z)
    (examples : list Example) (pending : option exn) : generator Encoded :=
  match examples with
  | [] => {| yields := []; raises := pending |}
  | ex :: rest =>
      if cap_reached max_examples_per_split i
      then {| yields := []; raises := None |}
      else match encode_example self ex with
           | Raise e => {| yields := []; raises := Some e |}
           | Ok record =>
               let g := generator_loop max_examples_per_split (i + 1) rest pending in
               {| yields := record :: yields g; raises := raises g |}
           end
  end.

(** [generator_fn], as returned by [make_generator_fn] for the keyword arguments *)
Definition generator_fn (max_examples_per_split : option Z) (kwargs : Kwargs)
  : generator Encoded :=
  let source := _generate_examples self kwargs in
  generator_loop max_examples_per_split 0 (yields source) (raises source).

(** [_build_split_filenames(split_info_list)] *)
Definition _build_split_filenames (data_dir : string)
    (split_info_list : list SplitInfo) : list string :=
  flat_map (λ split_info,
              filepaths_for_dataset_split self (name self) (split_name split_info)
                (num_shards split_info) data_dir (filetype_suffix self))
           split_info_list.

(** Modelled from the spec: [write_from_generator] drives the
    generator, hands every record it yields to the shard files, and
    lets an error of the generator abort the build. *)
Definition write_from_generator (g : generator Encoded)
    (output_files : list string) : M World unit :=
  run perform (WriteFromGenerator output_files (yields g)) then
  run modify (λ w, set_fs (list_to_set output_files ∪ fs w) w) then
  match raises g with
  | Some e => raise e
  | None => ret tt
  end.

Definition reserved_split_msg : string :=
  "tfds.Split.ALL is a special split keyword corresponding to the " +:+
  "union of all splits, so cannot be used as key in " +:+
  "._split_generator().".

(** The loop over [split_generator.split_info_list]. *)
Fixpoint add_split_infos (split_info_list : list SplitInfo)
    (split_dict : SplitDict) : M World SplitDict :=
  match split_info_list with
  | [] => ret split_dict
  | s :: rest =>
      if String.eqb ALL (split_name s)
      then raise (ValueError reserved_split_msg)
      else
        run logging (INFO ("Generating split " +:+ split_name s)) then
        let* split_dict := lift (SplitDict_add split_dict s) in
        add_split_infos rest split_dict
  end.

(** The loop over [self._split_generators(dl_manager)]. *)
Fixpoint generate_splits (max_examples_per_split : option Z)
    (split_generators : list SplitGenerator) (split_dict : SplitDict)
  : M World SplitDict :=
  match split_generators with
  | [] => ret split_dict
  | split_generator :: rest =>
      let* split_dict :=
        add_split_infos (split_info_list split_generator) split_dict in
      let* w := get in
      let output_files :=
        _build_split_filenames (_data_dir w) (split_info_list split_generator) in
      run write_from_generator
            (generator_fn max_examples_per_split (gen_kwargs split_generator))
            output_files then
      generate_splits max_examples_per_split rest split_dict
  end.

(** Modelled from the spec: [update_splits_if_different] records the
    new split dictionary as the source of truth. *)
Definition update_splits_if_different (split_dict : SplitDict) : M World unit :=
  modify (λ w, set_info {| version := version (info w);
                           splits := split_dict;
                           size_in_bytes := size_in_bytes (info w) |} w).

(** [GeneratorBasedBuilder._download_and_prepare] *)
Definition _download_and_prepare (dl_manager : DownloadManager)
    (max_examples_per_split : option Z) : M World unit :=
  run match max_examples_per_split with
      | Some n => logging (WARNING ("Splits capped at " +:+ str_int n +:+
                                    " examples max."))
      | None => ret tt
      end then
  let* w := get in
  run (if gfile_exists (fs w) (_data_dir w) then ret tt
       else gfile_makedirs (_data_dir w)) then
  let* generators := lift (_split_generators self dl_manager) in
  run modify (λ w, set_downloaded_size (downloaded_size w + generators.2) w) then
  let* split_dict := generate_splits max_examples_per_split generators.1 ∅ in
  update_splits_if_different split_dict.

(** Modelled from the spec: [incomplete_dir] allocates a temporary
    sibling directory, promotes it by a rename when the body
    succeeds, and removes it when the body fails. *)
Definition incomplete_dir (dirname : string) (body : string → M World unit)
  : M World unit :=
  let tmp_dir := get_incomplete_path self dirname in
  run gfile_makedirs tmp_dir then
  λ w, match body tmp_dir w with
       | (Ok tt, w') => gfile_rename tmp_dir dirname w'
       | (Raise e, w') =>
           if gfile_exists (fs w') tmp_dir
           then (Raise e, (gfile_rmtree tmp_dir w').2)
           else (Raise e, w')
       end.

(** [utils.temporary_assignment(self, "_data_dir", value)]: the
    attribute is restored when the body ends, also by raising. *)
Definition temporary_assignment (value : string) (body : M World unit)
  : M World unit :=
  λ w, let original := _data_dir w in
       let (r, w') := body (set_data_dir value w) in
       (r, set_data_dir original w').

Definition overwrite_msg (data_dir : string) (version : Version) : string :=
  "Trying to overwrite an existing dataset " +:+ name self +:+ " at " +:+
  data_dir +:+ ". A dataset with the same version " +:+ Version_str version +:+
  " already exists. If the dataset has changed, please update the version number.".

(** Modelled from the spec: the statistics computation is an external
    collaborator, of which the call is recorded. *)
Definition compute_dynamic_properties : M World unit :=
  perform ComputeDynamicProperties.

(** Modelled from the spec: [write_to_directory] writes the metadata
    document into the directory. *)
Definition write_to_directory (dir : string) : M World unit :=
  run perform (WriteToDirectory dir) then
  modify (λ w, set_persisted (<[dir := info w]> (persisted w)) w).

(** [download_and_prepare(download_dir=None, download_config=None)] *)
Definition download_and_prepare (download_dir : option string)
    (download_config : option DownloadConfig) : M World unit :=
  let download_config := default (default_DownloadConfig self) download_config in
  let* w := get in
  let data_exists := gfile_exists (fs w) (_data_dir w) in
  if data_exists &&
     bool_decide (download_mode download_config = REUSE_DATASET_IF_EXISTS)
  then
    logging (INFO ("Reusing dataset " +:+ name self +:+ " (" +:+ _data_dir w +:+ ")"))
  else
    let dl_manager := _make_download_manager download_dir download_config in
    if data_exists
    then raise (ValueError (overwrite_msg (_data_dir w) (version (info w))))
    else
      run logging (INFO ("Generating dataset " +:+ name self +:+ " (" +:+
                         _data_dir w +:+ ")")) then
      run _log_download_bytes then
      incomplete_dir (_data_dir w) (λ tmp_data_dir,
        temporary_assignment tmp_data_dir (
          run _download_and_prepare dl_manager
                (max_examples_per_split download_config) then
          let* w := get in
          run (if bool_decide (compute_stats download_config = SKIP) ||
                  (bool_decide (compute_stats download_config = AUTO) &&
                   negb (total_num_examples (splits (info w)) =? 0))
               then logging (INFO ("Skipping computing stats for mode " +:+
                                   ComputeStatsMode_str (compute_stats download_config)
                                   +:+ "."))
               else
                 run logging (INFO "Computing statistics.") then
                 compute_dynamic_properties) then
          run modify (λ w, set_info {| version := version (info w);
                                       splits := splits (info w);
                                       size_in_bytes := downloaded_size w |} w) then
          let* w := get in
          write_to_directory (_data_dir w))).

End builder.

Arguments SplitGenerator : clear implicits.
Arguments IO : clear implicits.
Arguments World : clear implicits.
Arguments Builder : clear implicits.

End dataset_builder.

(** ** Concrete registries and builders *)

Module examples.
Import checksums_management.

(** One dataset whose checksum file registers one URL. *)
Definition registry (register : bool) : state :=
  {| files := {[ "/url_checksums/mnist.txt" :=
                   "http://a/train.gz 10 aa" +:+ String nl EmptyString ]};
     _CHECKSUM_DIRS := ["/url_checksums"];
     dataset2path := [("mnist", "/url_checksums/mnist.txt")];
     _REGISTER_CHECKSUMS := register;
     _ALL_SIZE_CHECKSUMS := ∅;
     memo_get_sizes_checksums := ∅;
     memo_get_all_sizes_checksums := false |}.

Definition registered : SizesChecksums := {[ "http://a/train.gz" := (10, "aa") ]}.

(** The same process once it has read the file. *)
Definition registry_read (register : bool) : state :=
  set_memo_sizes {[ "/url_checksums/mnist.txt" := registered ]} (registry register).



(** Two datasets whose files disagree on a URL. *)
Definition two_registries (second : string) : state :=
  {| files := {[ "/url_checksums/mnist.txt" :=
                   "http://a/train.gz 10 aa" +:+ String nl EmptyString;
                 "/url_checksums/cifar.txt" := second ]};
     _CHECKSUM_DIRS := ["/url_checksums"];
     dataset2path := [("mnist", "/url_checksums/mnist.txt");
                      ("cifar", "/url_checksums/cifar.txt")];
     _REGISTER_CHECKSUMS := false;
     _ALL_SIZE_CHECKSUMS := ∅;
     memo_get_sizes_checksums := ∅;
     memo_get_all_sizes_checksums := false |}.

Import dataset_builder.

Definition version_of (a b c : N) : Version :=
  {| major := a; minor := b; patch := c |}.

Definition split_of (name : string) : SplitInfo :=
  {| split_name := name; num_shards := 2; num_examples := 0 |}.

Definition config_of (mode : GenerateMode) (cap : option Z) : DownloadConfig :=
  {| extract_dir := None; manual_dir := None; download_mode := mode;
     compute_stats := AUTO; max_examples_per_split := cap |}.

(** A dataset whose examples are integers, encoded as their decimal
    writing; every generation unit yields 1, 2, 3. *)
Definition mnist (declared : Version) (generators : list (SplitGenerator string))
  : Builder Z string string :=
  {| name := "mnist";
     _version := declared;
     _builder_config := None;
     _data_dir_root := "/data";
     default_DownloadConfig := config_of REUSE_DATASET_IF_EXISTS None;
     size_str := λ n, str_int n +:+ " bytes";
     get_incomplete_path := λ dirname, dirname +:+ ".incomplete";
     filetype_suffix := "tfrecord";
     filepaths_for_dataset_split := λ dataset split shards data_dir suffix,
       (λ i, path_join data_dir
               (dataset +:+ "-" +:+ split +:+ "." +:+ suffix +:+ "-" +:+
                str_int (Z.of_nat i) +:+ "-of-" +:+ str_int (Z.of_nat shards)))
       <$> seq 0 shards;
     _split_generators := λ _, Ok (generators, 100);
     _generate_examples := λ _, {| yields := [1; 2; 3]; raises := None |};
     encode_example := λ n, Ok (str_int n) |}.

Definition train_test : list (SplitGenerator string) :=
  [ {| split_info_list := [split_of "train"]; gen_kwargs := "train.zip" |};
    {| split_info_list := [split_of "test"]; gen_kwargs := "test.zip" |} ].

(** The second generation unit declares the reserved alias. *)
Definition train_all : list (SplitGenerator string) :=
  [ {| split_info_list := [split_of "train"]; gen_kwargs := "train.zip" |};
    {| split_info_list := [split_of "all"]; gen_kwargs := "all.zip" |} ].

(** A data root that holds the complete versions 0.9.0 and 1.0.0 of the
    dataset, and a directory that is no version. *)
Definition disk (declared : Version) : World string :=
  {| fs := {[ "/data"; "/data/mnist";
              "/data/mnist/0.9.0"; "/data/mnist/0.9.0/dataset_info.json";
              "/data/mnist/1.0.0"; "/data/mnist/1.0.0/dataset_info.json";
              "/data/mnist/1.0.0/mnist-train.tfrecord-0-of-1";
              "/data/mnist/2.0.0.incomplete" ]};
     persisted :=
       {[ "/data/mnist/0.9.0" :=
            {| version := version_of 0 9 0; splits := ∅; size_in_bytes := 5 |};
          "/data/mnist/1.0.0" :=
            {| version := version_of 1 0 0;
               splits := {[ "train" := split_of "train" ]};
               size_in_bytes := 7 |} ]};
     log := [];
     io := [];
     _data_dir := "";
     info := {| version := declared; splits := ∅; size_in_bytes := 0 |};
     downloaded_size := 0 |}.

(** The builders and the disks used below: version 1.0.0 or 2.0.0 is
    declared, and the builder has been constructed over the disk. *)
Definition mnist_1 : Builder Z string string := mnist (version_of 1 0 0) train_test.
Definition mnist_2 : Builder Z string string := mnist (version_of 2 0 0) train_test.
Definition mnist_2_all : Builder Z string string := mnist (version_of 2 0 0) train_all.

Definition disk_1 : World string := disk (version_of 1 0 0).
Definition disk_2 : World string := disk (version_of 2 0 0).

Definition opened_1 : World string := (__init__ mnist_1 disk_1).2.
Definition opened_2 : World string := (__init__ mnist_2 disk_2).2.

Definition dl_manager : DownloadManager :=
  _make_download_manager mnist_2_all None (config_of REUSE_DATASET_IF_EXISTS None).

End examples.

(** ** Python text: counting and [repr] *)

Module PyText.

(** [s.count(c)] for a one-character [c]. *)
Fixpoint count (c : ascii) (s : string) : nat :=
  match s with
  | EmptyString => 0%nat
  | String a s' => if Ascii.eqb a c then S (count c s') else count c s'
  end.

Definition single_quote : ascii := "'"%char.
Definition double_quote : ascii := ascii_of_nat 34.
Definition backslash : ascii := ascii_of_nat 92.

Definition hex_digit (n : nat) : ascii :=
  default "0"%char (list_ascii_of_string "0123456789abcdef" !! n).

(** One character of [repr(s)]: the quote and the backslash are
    escaped, control characters are written [\t], [\n], [\r] or [\xhh],
    every other character stands for itself. *)
Definition repr_char (quote a : ascii) : string :=
  let n := nat_of_ascii a in
  if Ascii.eqb a quote || Ascii.eqb a backslash
  then String backslash (String a EmptyString)
  else if (n =? 9)%nat then String backslash "t"
  else if (n =? 10)%nat then String backslash "n"
  else if (n =? 13)%nat then String backslash "r"
  else if (n <? 32)%nat || (n =? 127)%nat
  then String backslash
         (String "x" (String (hex_digit (n / 16)%nat)
                        (String (hex_digit (n mod 16)%nat) EmptyString)))
  else String a EmptyString.

Fixpoint repr_chars (quote : ascii) (s : string) : string :=
  match s with
  | EmptyString => EmptyString
  | String a s' => repr_char quote a +:+ repr_chars quote s'
  end.

(** [repr(s)] for a [str]: single quotes, unless the text holds a
    single quote and no double quote. *)
Definition repr (s : string) : string :=
  let quote :=
    if contains single_quote s && negb (contains double_quote s)
    then double_quote else single_quote in
  String quote (repr_chars quote s +:+ String quote EmptyString).

(** [str(l)] for a list of [str]. *)
Definition repr_list (l : list string) : string :=
  "[" +:+ join ", " (repr <$> l) +:+ "]".

End PyText.

(** ** dataset_builder.py: builder configurations *)

Module builder_config.
Import dataset_builder PyText.

Global Instance BuilderConfig_eq_dec : EqDecision BuilderConfig.
Proof. solve_decision. Defined.

(** A [BuilderConfig] instance. Python tells instances apart by
    identity ([is], [is not]): [ident] is the identity of the object,
    [attrs] what its properties return. *)
Record ConfigObject := {
  ident : nat;
  attrs : BuilderConfig
}.

(** The [config] argument of the constructor: [None], the name of a
    configuration, or an instance. *)
Inductive ConfigArg :=
| ArgNone
| ArgName (name : string)
| ArgConfig (builder_config : ConfigObject).

(** A [dict] with [str] keys, in insertion order. *)
Fixpoint dict_setitem {V} (d : list (string * V)) (key : string) (value : V)
  : list (string * V) :=
  match d with
  | [] => [(key, value)]
  | (k, v) :: d' =>
      if String.eqb k key then (k, value) :: d'
      else (k, v) :: dict_setitem d' key value
  end.

Fixpoint dict_getitem {V} (d : list (string * V)) (key : string) : option V :=
  match d with
  | [] => None
  | (k, v) :: d' => if String.eqb k key then Some v else dict_getitem d' key
  end.

Definition duplicated_names_msg (names : list string) : string :=
  "Names in BUILDER_CONFIGS must not be duplicated. Got " +:+ repr_list names.

(** The class property [builder_configs]: the pre-defined
    configurations by name. Its value depends on the class attribute
    [BUILDER_CONFIGS] only, and a call that raises is not cached. *)
Definition builder_configs (BUILDER_CONFIGS : list ConfigObject)
  : result (list (string * ConfigObject)) :=
  let config_dict :=
    foldl (λ d config, dict_setitem d (config_name (attrs config)) config)
          [] BUILDER_CONFIGS in
  if bool_decide (length config_dict ≠ length BUILDER_CONFIGS)
  then Raise (ValueError (duplicated_names_msg
                            ((λ config, config_name (attrs config))
                               <$> BUILDER_CONFIGS)))
  else Ok config_dict.

(** Truth value of the [version] and [description] attributes: [None]
    and the empty string are falsy. *)
Definition has_version (c : BuilderConfig) : bool :=
  bool_decide (is_Some (config_version c)).

Definition has_description (c : BuilderConfig) : bool :=
  match config_description c with
  | Some (String _ _) => true
  | _ => false
  end.

Section create.
(** [self.name] and the class attribute [BUILDER_CONFIGS] *)
Variable name : string.
Variable BUILDER_CONFIGS : list ConfigObject.

Definition not_found_msg (config : string) (available : list string) : string :=
  "BuilderConfig " +:+ config +:+ " not found. Available: " +:+
  repr_list available.

Definition same_name_msg (available : list string) : string :=
  "Cannot name a custom BuilderConfig the same as an available " +:+
  "BuilderConfig. Change the name. Available BuilderConfigs: " +:+
  repr_list available.

(** [_create_builder_config] from [name = builder_config.name] on, for
    an instance. *)
Definition validate_builder_config (builder_config : ConfigObject)
  : M (list LogRecord) (option ConfigObject) :=
  let name := config_name (attrs builder_config) in
  if bool_decide (name = EmptyString)
  then raise (ValueError ("BuilderConfig must have a name, got " +:+ name))
  else
    let* configs := lift (builder_configs BUILDER_CONFIGS) in
    match dict_getitem configs name with
    | None =>
        run modify (λ log, log ++ [WARNING ("Using custom data configuration "
                                            +:+ name)]) then
        ret (Some builder_config)
    | Some predefined =>
        if bool_decide (ident builder_config ≠ ident predefined)
        then raise (ValueError (same_name_msg configs.*1))
        else if negb (has_version (attrs builder_config))
        then raise (ValueError ("BuilderConfig " +:+ name +:+
                                " must have a version"))
        else if negb (has_description (attrs builder_config))
        then raise (ValueError ("BuilderConfig " +:+ name +:+
                                " must have a description"))
        else ret (Some builder_config)
    end.

(** [_create_builder_config(builder_config)]; the state is the log. *)
Definition _create_builder_config (builder_config : ConfigArg)
  : M (list LogRecord) (option ConfigObject) :=
  let* builder_config :=
    match builder_config, BUILDER_CONFIGS with
    | ArgNone, first :: _ =>
        run modify (λ log, log ++ [INFO ("No config specified, defaulting to first: "
                                         +:+ name +:+ "/" +:+
                                         config_name (attrs first))]) then
        ret (ArgConfig first)
    | _, _ => ret builder_config
    end in
  match builder_config with
  | ArgNone => ret None
  | ArgName EmptyString => ret None
  | ArgName config =>
      let* configs := lift (builder_configs BUILDER_CONFIGS) in
      match dict_getitem configs config with
      | None => raise (ValueError (not_found_msg config configs.*1))
      | Some builder_config => validate_builder_config builder_config
      end
  | ArgConfig builder_config => validate_builder_config builder_config
  end.

End create.

End builder_config.

(** ** dataset_builder.py: reading instructions *)

Module reading.
Import dataset_builder.

Section instructions.
Context {Example Encoded Kwargs Slice Mask : Type}.

Variable self : Builder Example Encoded Kwargs.

(** [splits_lib.slice_to_percent_mask], declared outside the two files. *)
Variable slice_to_percent_mask : Slice → Mask.

(** Modelled from the spec: [SlicedSplitInfo], a split and the slice of
    it to read. *)
Record SlicedSplitInfo := {
  split_info : SplitInfo;
  slice_value : Slice
}.

(** The dictionary [{"filepath": ..., "mask": ...}]. *)
Record InstructionDict := {
  filepath : string;
  mask : Mask
}.

(** [_slice_split_info_to_instruction_dicts(list_sliced_split_info)];
    [data_dir] is [self._data_dir]. *)
Definition _slice_split_info_to_instruction_dicts (data_dir : string)
    (list_sliced_split_info : list SlicedSplitInfo) : list InstructionDict :=
  flat_map (λ sliced_split_info,
              (λ filepath,
                 {| filepath := filepath;
                    mask := slice_to_percent_mask (slice_value sliced_split_info) |})
              <$> _build_split_filenames self data_dir
                    [split_info sliced_split_info])
           list_sliced_split_info.

End instructions.

Arguments SlicedSplitInfo : clear implicits.
Arguments InstructionDict : clear implicits.

End reading.

(** ** Builders that fail while generating, and builder configurations *)

Module more_examples.
Import dataset_builder builder_config examples.

(** [self] with another source of examples and another encoder. *)
Definition with_examples (self : Builder Z string string)
    (source : string → generator Z) (encode : Z → result string)
  : Builder Z string string :=
  {| name := name self;
     _version := _version self;
     _builder_config := _builder_config self;
     _data_dir_root := _data_dir_root self;
     default_DownloadConfig := default_DownloadConfig self;
     size_str := size_str self;
     get_incomplete_path := get_incomplete_path self;
     filetype_suffix := filetype_suffix self;
     filepaths_for_dataset_split := filepaths_for_dataset_split self;
     _split_generators := _split_generators self;
     _generate_examples := source;
     encode_example := encode |}.

(** The encoder rejects negative examples, and the test archive holds one. *)
Definition picky : Builder Z string string :=
  with_examples mnist_2
    (λ kwargs, if String.eqb kwargs "test.zip"
               then {| yields := [1; -2; 3]; raises := None |}
               else {| yields := [1; 2; 3]; raises := None |})
    (λ n, if n <? 0 then Raise (ValueError "negative example")
          else Ok (str_int n)).

(** The archives break off after three examples. *)
Definition truncated : Builder Z string string :=
  with_examples mnist_2
    (λ kwargs, {| yields := [1; 2; 3]; raises := Some (NotFoundError kwargs) |})
    (λ n, Ok (str_int n)).

(** Two pre-defined configurations, a copy of the first one, and a
    configuration of the caller's own. *)
Definition plain_text : ConfigObject :=
  {| ident := 1;
     attrs := {| config_name := "plain_text";
                 config_version := Some (version_of 0 1 0);
                 config_description := Some "Plain text" |} |}.

Definition subwords : ConfigObject :=
  {| ident := 2;
     attrs := {| config_name := "subwords";
                 config_version := Some (version_of 0 1 0);
                 config_description := None |} |}.

Definition plain_text_copy : ConfigObject :=
  {| ident := 3; attrs := attrs plain_text |}.

Definition bytes_config : ConfigObject :=
  {| ident := 4;
     attrs := {| config_name := "bytes";
                 config_version := None;
                 config_description := None |} |}.

Definition BUILDER_CONFIGS : list ConfigObject := [plain_text; subwords].

End more_examples.

(** * Properties *)

(** ** Strings and integers *)

Section string_facts.

Lemma append_cons x (a b : string) : String x a +:+ b = String x (a +:+ b).
Proof. reflexivity. Qed.

Lemma append_nil (b : string) : EmptyString +:+ b = b.
Proof. reflexivity. Qed.

Lemma append_String_assoc (a b c : string) : (a +:+ b) +:+ c = a +:+ (b +:+ c).
Proof.
  induction a as [|x a IH]; [done |]. rewrite !append_cons. by f_equal.
Qed.

Lemma contains_append c (a b : string) :
  contains c (a +:+ b) = contains c a || contains c b.
Proof.
  induction a as [|x a IH]; [done |]. rewrite append_cons. simpl.
  destruct (Ascii.eqb x c); [done | apply IH].
Qed.

Lemma contains_forall c s :
  string_forall (λ a, negb (Ascii.eqb a c)) s = negb (contains c s).
Proof.
  induction s as [|x s IH]; simpl; [done |].
  destruct (Ascii.eqb x c); simpl; [done | apply IH].
Qed.

Lemma string_forall_impl (P Q : ascii → bool) s :
  (∀ a, P a = true → Q a = true) →
  string_forall P s = true → string_forall Q s = true.
Proof.
  intros HPQ. induction s as [|x s IH]; simpl; [done |].
  intros [Hx Hs]%andb_prop. rewrite (HPQ _ Hx). simpl. by apply IH.
Qed.

(** A line that holds no separator is the first piece of a split. *)
Lemma split_append sep (l rest : string) :
  contains sep l = false →
  split sep (l +:+ String sep rest) = l :: split sep rest.
Proof.
  induction l as [|x l IH]; rewrite ?append_cons, ?append_nil; simpl.
  - intros _. by rewrite Ascii.eqb_refl.
  - destruct (Ascii.eqb x sep) eqn:Hx; [done |]. intros Hl.
    by rewrite (IH Hl).
Qed.


(** No piece of a split holds the separator. *)
Lemma split_pieces sep s piece :
  piece ∈ split sep s → contains sep piece = false.
Proof.
  revert piece. induction s as [|x s IH]; simpl; intros piece.
  - by intros ->%list_elem_of_singleton.
  - destruct (Ascii.eqb x sep) eqn:Hx.
    + intros [->|Hin]%elem_of_cons; [done | by apply IH].
    + destruct (split sep s) as [|p ps] eqn:Hs.
      * intros ->%list_elem_of_singleton. simpl. by rewrite Hx.
      * intros [->|Hin]%elem_of_cons.
        -- simpl. rewrite Hx. apply IH. left.
        -- apply IH. by right.
Qed.

Lemma rsplit1_None sep s : contains sep s = false → rsplit1 sep s = None.
Proof.
  induction s as [|x s IH]; simpl; [done |].
  destruct (Ascii.eqb x sep); [done |]. intros Hs. by rewrite (IH Hs).
Qed.

(** The last separator of [a sep b] is the one written, when [b] holds none. *)
Lemma rsplit1_append sep (a b : string) :
  contains sep b = false →
  rsplit1 sep (a +:+ String sep b) = Some (a, b).
Proof.
  intros Hb. induction a as [|x a IH]; rewrite ?append_cons, ?append_nil; simpl.
  - by rewrite (rsplit1_None _ _ Hb), Ascii.eqb_refl.
  - by rewrite IH.
Qed.

Lemma rsplit1_Some sep s a b :
  rsplit1 sep s = Some (a, b) →
  s = a +:+ String sep b ∧ contains sep b = false.
Proof.
  revert a b. induction s as [|x s IH]; simpl; intros a b; [done |].
  destruct (rsplit1 sep s) as [[a' b']|] eqn:Hs.
  - intros [= <- <-]. destruct (IH _ _ eq_refl) as [-> Hb]. done.
  - destruct (Ascii.eqb_spec x sep) as [->|]; [|done].
    intros [= <- <-]. split; [done |].
    clear IH. induction s as [|y s IH]; simpl in *; [done |].
    destruct (rsplit1 sep s) as [[? ?]|]; [done |].
    destruct (Ascii.eqb y sep); [done | by apply IH].
Qed.

(** A written line splits into the three fields it was written from. *)
Lemma rsplit2_line (url size checksum : string) :
  contains sp size = false → contains sp checksum = false →
  rsplit2 sp (url +:+ String sp (size +:+ String sp checksum))
  = [url; size; checksum].
Proof.
  intros Hsize Hsum. unfold rsplit2.
  replace (url +:+ String sp (size +:+ String sp checksum))
    with ((url +:+ String sp size) +:+ String sp checksum)
    by (by rewrite append_String_assoc).
  rewrite (rsplit1_append _ _ _ Hsum).
  by rewrite (rsplit1_append _ _ _ Hsize).
Qed.

Lemma digits_of_uint d :
  string_forall is_digit (NilEmpty.string_of_uint d) = true.
Proof. induction d; simpl; done. Qed.

Lemma digits_str_uint d :
  string_forall is_digit (NilZero.string_of_uint d) = true
  ∧ NilZero.string_of_uint d ≠ EmptyString.
Proof.
  destruct d; simpl; (split; [|done]); try done; apply digits_of_uint.
Qed.

Lemma digit_not_space a : is_digit a = true → is_space a = false.
Proof.
  destruct a as [[] [] [] [] [] [] [] []]; vm_compute; congruence.
Qed.

Lemma digit_not_char a c :
  is_digit c = false → is_digit a = true → negb (Ascii.eqb a c) = true.
Proof. intros Hc Ha. destruct (Ascii.eqb_spec a c) as [->|]; [congruence | done]. Qed.

Lemma lstrip_id s :
  string_forall (λ a, negb (is_space a)) s = true → lstrip s = s.
Proof. destruct s as [|x s]; simpl; [done |]. by destruct (is_space x). Qed.

Lemma rstrip_id s :
  string_forall (λ a, negb (is_space a)) s = true → rstrip s = s.
Proof.
  induction s as [|x s IH]; simpl; [done |].
  intros [Hx Hs]%andb_prop. rewrite (IH Hs).
  destruct s; [|done]. by destruct (is_space x).
Qed.

Lemma strip_id s :
  string_forall (λ a, negb (is_space a)) s = true → strip s = s.
Proof. intros H. unfold strip. by rewrite (lstrip_id _ H), (rstrip_id _ H). Qed.

Lemma drop_underscores_digits s :
  string_forall is_digit s = true →
  drop_underscores true s = Some s
  ∧ (s ≠ EmptyString → drop_underscores false s = Some s).
Proof.
  induction s as [|x s IH]; simpl; [done |].
  intros [Hx Hs]%andb_prop. destruct (IH Hs) as [IH1 _].
  assert (Ascii.eqb x "_" = false) as ->.
  { destruct (Ascii.eqb_spec x "_"%char) as [->|]; [done | done]. }
  by rewrite Hx, IH1.
Qed.

Lemma int_digits_str_uint d :
  int_digits (NilZero.string_of_uint d) = Some (Z.of_uint d).
Proof.
  destruct (digits_str_uint d) as [Hd Hne]. unfold int_digits.
  destruct (drop_underscores_digits _ Hd) as [_ ->]; [|done]. simpl.
  destruct (NilZero.usu_gen d) as [-> | Hz]; [done |].
  rewrite Hz. simpl. destruct d; [done | ..];
    rewrite NilZero.usu in Hz by done; by simplify_eq.
Qed.

(** [int(str(n)) == n] *)
Lemma int_str_int n : int (str_int n) = Some n.
Proof.
  unfold str_int, int. rewrite <- (DecimalZ.of_to n) at 2.
  destruct (Z.to_int n) as [d|d]; simpl NilZero.string_of_int.
  - destruct (digits_str_uint d) as [Hd Hne].
    rewrite strip_id
      by (eapply string_forall_impl; [|done]; intros a Ha;
          by rewrite (digit_not_space _ Ha)).
    pose proof (int_digits_str_uint d) as Hint.
    destruct (NilZero.string_of_uint d) as [|x s]; [done |].
    simpl in Hd. apply andb_prop in Hd as [Hx _].
    destruct (Ascii.eqb_spec x "-"%char) as [->|]; [done |].
    destruct (Ascii.eqb_spec x "+"%char) as [->|]; [done |].
    rewrite Hint. done.
  - destruct (digits_str_uint d) as [Hd Hne].
    rewrite strip_id.
    + rewrite Ascii.eqb_refl, int_digits_str_uint. done.
    + simpl. eapply string_forall_impl; [|done]. intros a Ha.
      by rewrite (digit_not_space _ Ha).
Qed.

(** [str(n)] holds neither a space nor a newline. *)
Lemma str_int_plain n :
  contains sp (str_int n) = false ∧ contains nl (str_int n) = false.
Proof.
  unfold str_int.
  assert (∀ d c, is_digit c = false →
            contains c (NilZero.string_of_uint d) = false) as Hu.
  { intros d c Hc. destruct (digits_str_uint d) as [Hd _].
    apply negb_true_iff. rewrite <- contains_forall.
    eapply string_forall_impl; [|done]. intros a. by apply digit_not_char. }
  destruct (Z.to_int n) as [d|d]; simpl; rewrite ?Hu; done.
Qed.

End string_facts.

(** ** The checksum registry *)

Section checksum_facts.
Import checksums_management.

Implicit Types (s : state) (d : SizesChecksums) (path url : string).

Global Instance item_le_total : Total item_le.
Proof. intros x y. unfold item_le. apply (total String.le). Qed.


Lemma sorted_items_perm d : sorted_items d ≡ₚ map_to_list d.
Proof. apply merge_sort_Permutation. Qed.

Lemma state_eta s :
  set_memo_sizes (memo_get_sizes_checksums s) s = s.
Proof. by destruct s. Qed.



Lemma file_checksums_set_all a s path :
  file_checksums (set_all a s) path = file_checksums s path.
Proof. done. Qed.

(** Whatever it answers, loading touches nothing but the cache; a
    dictionary it returns is cached from then on, and it is what the
    file holds unless the cache held something else. *)
Lemma get_sizes_checksums_inv s path r s0 :
  _get_sizes_checksums path s = (r, s0) →
  ∃ cache,
    s0 = set_memo_sizes cache s
    ∧ ∀ d, r = Ok d →
        cache !! path = Some d
        ∧ (cache_coherent s path → file_checksums s path = Some d).
Proof.
  unfold _get_sizes_checksums, memoize, bind at 1, get, cache_coherent,
    file_checksums.
  destruct (memo_get_sizes_checksums s !! path) as [cached|] eqn:Hmemo.
  - intros [= <- <-]. exists (memo_get_sizes_checksums s).
    rewrite state_eta. split; [done |]. by intros d [= <-].
  - unfold _read_file, bind, get, lift, raise, ret, modify.
    destruct (files s !! path) as [content|]; simpl.
    + destruct (parse_checksums content) as [d'|e]; intros [= <- <-].
      * eexists. split; [done |]. intros d [= <-].
        by rewrite lookup_insert_eq.
      * exists (memo_get_sizes_checksums s). rewrite state_eta. done.
    + intros [= <- <-]. exists (memo_get_sizes_checksums s).
      rewrite state_eta. done.
Qed.

End checksum_facts.

Section line_format_facts.
Import checksums_management.

Implicit Types (s : state) (d : SizesChecksums) (path url : string).
Implicit Types (item : string * (Z * string)).

Lemma format_line_eq item :
  format_line item
  = (item.1 +:+ String sp (str_int item.2.1 +:+ String sp item.2.2))
    +:+ String nl EmptyString.
Proof.
  unfold format_line.
  rewrite append_String_assoc, append_cons. do 2 f_equal.
  by rewrite append_String_assoc, append_cons.
Qed.

Lemma line_no_newline item :
  writable item.1 item.2 →
  contains nl (item.1 +:+ String sp (str_int item.2.1 +:+ String sp item.2.2))
  = false.
Proof.
  intros (Hurl & Hnl & _). destruct (str_int_plain item.2.1) as [_ Hsize].
  rewrite contains_append, Hurl. simpl.
  rewrite contains_append, Hsize. simpl. done.
Qed.

Lemma line_not_empty (url rest : string) : url +:+ String sp rest ≠ EmptyString.
Proof. by destruct url. Qed.

(** The lines of a written file are the written lines, and one empty
    piece after the last newline. *)
Lemma split_write_lines (items : list (string * (Z * string))) :
  Forall (λ item, writable item.1 item.2) items →
  split nl (write_lines items)
  = map (λ item, item.1 +:+ String sp (str_int item.2.1 +:+ String sp item.2.2))
        items ++ [EmptyString].
Proof.
  induction 1 as [|item items Hitem _ IH]; [done |].
  simpl. rewrite format_line_eq, append_String_assoc, append_cons, append_nil.
  rewrite split_append by (by apply line_no_newline). by rewrite IH.
Qed.

Lemma parse_lines_cons (line : string) rest d :
  line ≠ EmptyString →
  parse_lines (line :: rest) d
  = match rsplit2 sp line with
    | [url; size; checksum] =>
        match int size with
        | Some n => parse_lines rest (<[url := (n, checksum)]> d)
        | None => Raise (ValueError "invalid literal for int() with base 10")
        end
    | _ => Raise (ValueError "not enough values to unpack (expected 3)")
    end.
Proof. by destruct line. Qed.

(** Reading written lines inserts the written items, in order. *)
Lemma parse_lines_written (items : list (string * (Z * string))) d :
  Forall (λ item, writable item.1 item.2) items →
  parse_lines
    (map (λ item, item.1 +:+ String sp (str_int item.2.1 +:+ String sp item.2.2))
         items ++ [EmptyString]) d
  = Ok (fold_left (λ acc item, <[item.1 := item.2]> acc) items d).
Proof.
  intros Hitems. revert d.
  induction Hitems as [|[url [size checksum]] items Hitem _ IH]; intros d; [done |].
  destruct Hitem as (_ & _ & Hsp). cbn [fst snd] in Hsp.
  rewrite map_cons, <- app_comm_cons. cbn [fst snd fold_left].
  rewrite parse_lines_cons by apply line_not_empty.
  destruct (str_int_plain size) as [Hsize _].
  rewrite (rsplit2_line _ _ _ Hsize Hsp), int_str_int. apply IH.
Qed.

Lemma fold_insert_items (items : list (string * (Z * string))) d :
  items ≡ₚ map_to_list d →
  fold_left (λ acc item, <[item.1 := item.2]> acc) items ∅ = d.
Proof.
  intros Hperm.
  rewrite <- (list_to_map_to_list d).
  rewrite <- (rev_involutive items) at 1.
  rewrite <- fold_left_rev_right, rev_involutive.
  change (list_to_map (rev items) =@{SizesChecksums} list_to_map (map_to_list d)).
  apply list_to_map_proper.
  - rewrite <- Permutation_rev, Hperm. apply NoDup_fst_map_to_list.
  - by rewrite <- Permutation_rev.
Qed.

(** Reading back what was written: the line format round-trips on
    writable dictionaries. *)
Lemma parse_write_lines d :
  map_Forall writable d →
  parse_checksums (write_lines (sorted_items d)) = Ok d.
Proof.
  intros Hd.
  assert (Forall (λ item, writable item.1 item.2) (sorted_items d)) as Hitems.
  { apply Forall_forall. intros [url tuple] Hin.
    rewrite sorted_items_perm in Hin. apply elem_of_map_to_list in Hin.
    by apply Hd. }
  unfold parse_checksums.
  rewrite (split_write_lines _ Hitems), (parse_lines_written _ _ Hitems).
  f_equal. apply fold_insert_items, sorted_items_perm.
Qed.

Lemma parse_lines_writable lines d d' :
  Forall (λ line, contains nl line = false) lines →
  map_Forall writable d →
  parse_lines lines d = Ok d' →
  map_Forall writable d'.
Proof.
  intros Hlines. revert d.
  induction Hlines as [|line lines Hline _ IH]; intros d Hd; simpl.
  - by intros [= <-].
  - destruct line as [|a line']; [by apply IH |].
    unfold rsplit2.
    destruct (rsplit1 sp (String a line')) as [[rest checksum]|] eqn:H1; [|done].
    destruct (rsplit1 sp rest) as [[url size]|] eqn:H2; [|done].
    destruct (int size) as [n|]; [|done].
    apply IH. apply map_Forall_insert_2; [|done].
    apply rsplit1_Some in H1 as [H1 Hsp]. apply rsplit1_Some in H2 as [-> _].
    rewrite H1 in Hline. rewrite !contains_append in Hline. simpl in Hline.
    apply orb_false_iff in Hline as [Hline Hsum].
    apply orb_false_iff in Hline as [Hurl _].
    done.
Qed.


End line_format_facts.

Section record_facts.
Import checksums_management.

Implicit Types (s : state) (d : SizesChecksums) (path url : string).











End record_facts.

Section load_all_facts.
Import checksums_management.

Implicit Types (s : state) (d all : SizesChecksums) (path url : string).







End load_all_facts.

(** ** The example generator of a generation unit *)

Section generator_facts.
Import dataset_builder.
Context {Example Encoded Kwargs : Type} (self : Builder Example Encoded Kwargs).

(** Below the cap, or without one, every example is encoded in turn. *)
Lemma generator_loop_all max i examples pending records :
  (∀ j, i ≤ j → cap_reached max j = false) →
  Forall2 (λ ex record, encode_example self ex = Ok record) examples records →
  generator_loop self max i examples pending
  = {| yields := records; raises := pending |}.
Proof.
  intros Hcap Henc. revert i Hcap.
  induction Henc as [|ex record examples records Hex _ IH]; intros i Hcap; [done |].
  simpl. rewrite Hcap by lia. rewrite Hex. by rewrite IH by (intros; apply Hcap; lia).
Qed.

(** A positive cap stops the loop once [n] examples were encoded. *)
Lemma generator_loop_capped n i examples pending records :
  0 < n → 0 ≤ i →
  Forall2 (λ ex record, encode_example self ex = Ok record)
    (take (Z.to_nat (n - i)) examples) records →
  yields (generator_loop self (Some n) i examples pending) = records.
Proof.
  intros Hn. revert i records.
  induction examples as [|ex examples IH]; intros i records Hi Henc.
  - rewrite take_nil in Henc. by apply Forall2_nil_inv_l in Henc as ->.
  - simpl. unfold cap_reached.
    assert ((n =? 0) = false) as -> by lia. simpl.
    destruct (Z.leb_spec n i) as [Hle|Hlt].
    + replace (Z.to_nat (n - i)) with 0%nat in Henc by lia.
      by apply Forall2_nil_inv_l in Henc as ->.
    + replace (Z.to_nat (n - i)) with (S (Z.to_nat (n - (i + 1)))) in Henc by lia.
      simpl in Henc.
      apply Forall2_cons_inv_l in Henc as (record & records' & Hex & Henc & ->).
      rewrite Hex. simpl. f_equal. apply IH; [lia | done].
Qed.


(** C8. For a positive cap [n], the records handed to the shard writer
    are the encodings of the first [min n total] examples of the
    generator, in the order it yields them. *)
Theorem cap_keeps_first_examples n kwargs records :
  0 < n →
  Forall2 (λ ex record, encode_example self ex = Ok record)
    (take ((Z.to_nat n) `min` (length (yields (_generate_examples self kwargs))))
          (yields (_generate_examples self kwargs)))
    records →
  yields (generator_fn self (Some n) kwargs) = records
  ∧ ∀ output_files w,
      io (write_from_generator (generator_fn self (Some n) kwargs)
            output_files w).2
      = io w ++ [WriteFromGenerator output_files records].
Proof.
  intros Hn Henc.
  assert (yields (generator_fn self (Some n) kwargs) = records) as Hyields.
  { unfold generator_fn. apply generator_loop_capped; [done | done |].
    rewrite Z.sub_0_r.
    destruct (Nat.min_spec (Z.to_nat n)
                (length (yields (_generate_examples self kwargs))))
      as [[_ Hmin] | [Hle Hmin]]; rewrite Hmin in Henc; [done |].
    rewrite firstn_all in Henc. by rewrite take_ge. }
  split; [done |]. intros output_files w.
  unfold write_from_generator, bind, perform, modify. rewrite Hyields.
  by destruct (raises (generator_fn self (Some n) kwargs)).
Qed.

(** C10, amended. A cap of [0] is taken as no cap: every example the
    generator yields is encoded and handed to the shard writer, as with
    [None]. A positive cap keeps the first [n] examples, and a negative
    one stops the loop at the first example. *)
Theorem cap_zero_is_unset kwargs records :
  Forall2 (λ ex record, encode_example self ex = Ok record)
    (yields (_generate_examples self kwargs)) records →
  yields (generator_fn self None kwargs) = records
  ∧ yields (generator_fn self (Some 0) kwargs) = records
  ∧ (∀ output_files w,
       io (write_from_generator (generator_fn self (Some 0) kwargs)
             output_files w).2
       = io w ++ [WriteFromGenerator output_files records])
  ∧ (∀ n, 0 < n →
       yields (generator_fn self (Some n) kwargs) = take (Z.to_nat n) records)
  ∧ (∀ n, n < 0 → yields (generator_fn self (Some n) kwargs) = []).
Proof.
  intros Henc.
  assert (yields (generator_fn self (Some 0) kwargs) = records) as Hzero.
  { unfold generator_fn. by rewrite (generator_loop_all _ _ _ _ records). }
  split_and!.
  - unfold generator_fn. by rewrite (generator_loop_all _ _ _ _ records).
  - done.
  - intros output_files w.
    unfold write_from_generator, bind, perform, modify. rewrite Hzero.
    by destruct (raises (generator_fn self (Some 0) kwargs)).
  - intros n Hn. unfold generator_fn.
    apply generator_loop_capped; [done | done |].
    rewrite Z.sub_0_r. by apply Forall2_take.
  - intros n Hn. unfold generator_fn.
    destruct (yields (_generate_examples self kwargs)) as [|ex examples]; [done |].
    simpl. assert ((n =? 0) = false) as -> by lia.
    assert ((n <=? 0) = true) as -> by lia. done.
Qed.

End generator_facts.

Section generator_examples.
Import dataset_builder.

(** A cap of two on a generator of three examples. *)
Lemma cap_keeps_first_examples_two :
  (0 < 2
   ∧ Forall2 (λ ex record, encode_example examples.mnist_2 ex = Ok record)
       (take ((Z.to_nat 2) `min`
              (length (yields (_generate_examples examples.mnist_2 "train.zip"))))
             (yields (_generate_examples examples.mnist_2 "train.zip")))
       ["1"; "2"])
  ∧ yields (generator_fn examples.mnist_2 (Some 2) "train.zip") = ["1"; "2"]
  ∧ ∀ output_files (w : World string),
      io (write_from_generator
            (generator_fn examples.mnist_2 (Some 2) "train.zip") output_files w).2
      = io w ++ [WriteFromGenerator output_files ["1"; "2"]].
Proof.
  assert (Forall2 (λ ex record, encode_example examples.mnist_2 ex = Ok record)
            (take ((Z.to_nat 2) `min`
                   (length (yields (_generate_examples examples.mnist_2
                                      "train.zip"))))
                  (yields (_generate_examples examples.mnist_2 "train.zip")))
            ["1"; "2"]) as Henc
    by (repeat constructor).
  split; [split; [lia | exact Henc] |].
  apply (cap_keeps_first_examples examples.mnist_2 2 "train.zip" ["1"; "2"]);
    [lia | exact Henc].
Defined.

(** C10, as stated, fails on its last clause: a cap of [-1] is not
    positive and yet takes effect, no example being encoded. *)
Lemma negative_cap_takes_effect :
  ¬ (0 < -1)
  ∧ yields (_generate_examples examples.mnist_2 "train.zip") = [1; 2; 3]
  ∧ yields (generator_fn examples.mnist_2 None "train.zip") = ["1"; "2"; "3"]
  ∧ yields (generator_fn examples.mnist_2 (Some (-1)) "train.zip") = [].
Proof. split_and!; [lia | reflexivity..]. Qed.

(** The generator of three examples, under each kind of cap. *)
Lemma cap_zero_is_unset_three :
  Forall2 (λ ex record, encode_example examples.mnist_2 ex = Ok record)
    (yields (_generate_examples examples.mnist_2 "train.zip")) ["1"; "2"; "3"]
  ∧ yields (generator_fn examples.mnist_2 None "train.zip") = ["1"; "2"; "3"]
  ∧ yields (generator_fn examples.mnist_2 (Some 0) "train.zip") = ["1"; "2"; "3"]
  ∧ (∀ output_files (w : World string),
       io (write_from_generator
             (generator_fn examples.mnist_2 (Some 0) "train.zip") output_files w).2
       = io w ++ [WriteFromGenerator output_files ["1"; "2"; "3"]])
  ∧ (∀ n, 0 < n →
       yields (generator_fn examples.mnist_2 (Some n) "train.zip")
       = take (Z.to_nat n) ["1"; "2"; "3"])
  ∧ (∀ n, n < 0 →
       yields (generator_fn examples.mnist_2 (Some n) "train.zip") = []).
Proof.
  assert (Forall2 (λ ex record, encode_example examples.mnist_2 ex = Ok record)
            (yields (_generate_examples examples.mnist_2 "train.zip"))
            ["1"; "2"; "3"]) as Henc
    by (repeat constructor).
  split; [exact Henc |].
  apply (cap_zero_is_unset examples.mnist_2 "train.zip" ["1"; "2"; "3"] Henc).
Defined.

End generator_examples.

(** ** Building into a directory that exists *)

Section existing_directory_facts.
Import dataset_builder.
Context {Example Encoded Kwargs : Type} (self : Builder Example Encoded Kwargs).

Implicit Types (w : World Encoded).

(** C5. When the versioned data directory exists and the download mode
    is [REUSE_DATASET_IF_EXISTS], [download_and_prepare] returns after
    one line of log: nothing is created, written, renamed or removed,
    and the split dictionary, in memory and persisted, is unchanged. *)
Theorem reuse_existing_dataset w download_dir download_config :
  gfile_exists (fs w) (_data_dir w) = true →
  download_mode (default (default_DownloadConfig self) download_config)
  = REUSE_DATASET_IF_EXISTS →
  ∃ w',
    download_and_prepare self download_dir download_config w = (Ok tt, w')
    ∧ io w' = io w
    ∧ fs w' = fs w
    ∧ persisted w' = persisted w
    ∧ info w' = info w
    ∧ _data_dir w' = _data_dir w
    ∧ log w' = log w ++ [INFO ("Reusing dataset " +:+ name self +:+ " (" +:+
                               _data_dir w +:+ ")")].
Proof.
  intros Hexists Hmode. unfold download_and_prepare, bind at 1, get.
  rewrite Hexists, Hmode. rewrite bool_decide_eq_true_2 by done. simpl.
  eexists. split; [done |]. done.
Qed.

(** C4, amended. When the data directory of the version the code
    declares exists and the download mode is not
    [REUSE_DATASET_IF_EXISTS], [download_and_prepare] fails with a
    [ValueError] that names the dataset, that directory and the version
    of the dataset information, and asks to update the version number;
    nothing is written. *)
Theorem overwrite_existing_dataset w download_dir download_config :
  gfile_exists (fs w) (_data_dir w) = true →
  download_mode (default (default_DownloadConfig self) download_config)
  ≠ REUSE_DATASET_IF_EXISTS →
  download_and_prepare self download_dir download_config w
  = (Raise (ValueError (overwrite_msg self (_data_dir w) (version (info w)))), w).
Proof.
  intros Hexists Hmode. unfold download_and_prepare, bind at 1, get.
  rewrite Hexists. rewrite bool_decide_eq_false_2 by done. done.
Qed.

End existing_directory_facts.

Section existing_directory_examples.
Import dataset_builder.

(** The declared version 1.0.0 is on disk and is reused. *)
Lemma reuse_existing_dataset_mnist :
  (gfile_exists (fs examples.opened_1) (_data_dir examples.opened_1) = true
   ∧ download_mode
       (default (default_DownloadConfig examples.mnist_1)
          (Some (examples.config_of REUSE_DATASET_IF_EXISTS None)))
     = REUSE_DATASET_IF_EXISTS)
  ∧ ∃ w',
      download_and_prepare examples.mnist_1 None
        (Some (examples.config_of REUSE_DATASET_IF_EXISTS None)) examples.opened_1
      = (Ok tt, w')
      ∧ io w' = io examples.opened_1
      ∧ fs w' = fs examples.opened_1
      ∧ persisted w' = persisted examples.opened_1
      ∧ info w' = info examples.opened_1
      ∧ _data_dir w' = _data_dir examples.opened_1
      ∧ log w'
        = log examples.opened_1
          ++ [INFO ("Reusing dataset " +:+ name examples.mnist_1 +:+ " (" +:+
                    _data_dir examples.opened_1 +:+ ")")].
Proof.
  assert (gfile_exists (fs examples.opened_1) (_data_dir examples.opened_1) = true)
    as Hexists by (vm_compute; reflexivity).
  split; [split; [exact Hexists | reflexivity] |].
  apply (reuse_existing_dataset examples.mnist_1 examples.opened_1 None
           (Some (examples.config_of REUSE_DATASET_IF_EXISTS None)));
    [exact Hexists | reflexivity].
Defined.

(** C4, as stated, fails: with the complete version 1.0.0 on disk and
    version 2.0.0 declared by the code, the constructor warns and the
    build succeeds, whatever the download mode; version 2.0.0 is
    written beside version 1.0.0. *)
Lemma build_beside_other_version :
  gfile_exists (fs examples.disk_2) "/data/mnist/1.0.0" = true
  ∧ version <$> persisted examples.disk_2 !! "/data/mnist/1.0.0"
    = Some (examples.version_of 1 0 0)
  ∧ _version examples.mnist_2 = examples.version_of 2 0 0
  ∧ examples.version_of 1 0 0 ≠ examples.version_of 2 0 0
  ∧ _data_dir examples.opened_2 = "/data/mnist/2.0.0"
  ∧ (∀ mode,
       (download_and_prepare examples.mnist_2 None
          (Some (examples.config_of mode None)) examples.opened_2).1
       = Ok tt)
  ∧ (∀ mode,
       let w' :=
         (download_and_prepare examples.mnist_2 None
            (Some (examples.config_of mode None)) examples.opened_2).2 in
       gfile_exists (fs w') "/data/mnist/2.0.0" = true
       ∧ gfile_exists (fs w') "/data/mnist/1.0.0" = true).
Proof.
  split_and!.
  - by vm_compute.
  - by vm_compute.
  - done.
  - done.
  - by vm_compute.
  - intros []; by vm_compute.
  - intros []; split; by vm_compute.
Qed.

(** The declared version 1.0.0 is on disk and a forced build is refused. *)
Lemma overwrite_existing_dataset_mnist :
  (gfile_exists (fs examples.opened_1) (_data_dir examples.opened_1) = true
   ∧ download_mode
       (default (default_DownloadConfig examples.mnist_1)
          (Some (examples.config_of FORCE_REDOWNLOAD None)))
     ≠ REUSE_DATASET_IF_EXISTS)
  ∧ download_and_prepare examples.mnist_1 None
      (Some (examples.config_of FORCE_REDOWNLOAD None)) examples.opened_1
    = (Raise (ValueError
                (overwrite_msg examples.mnist_1 (_data_dir examples.opened_1)
                   (version (info examples.opened_1)))),
       examples.opened_1).
Proof.
  assert (gfile_exists (fs examples.opened_1) (_data_dir examples.opened_1) = true)
    as Hexists by (vm_compute; reflexivity).
  assert (download_mode
            (default (default_DownloadConfig examples.mnist_1)
               (Some (examples.config_of FORCE_REDOWNLOAD None)))
          ≠ REUSE_DATASET_IF_EXISTS) as Hmode by (simpl; discriminate).
  split; [split; [exact Hexists | exact Hmode] |].
  apply (overwrite_existing_dataset examples.mnist_1 examples.opened_1 None
           (Some (examples.config_of FORCE_REDOWNLOAD None)));
    [exact Hexists | exact Hmode].
Defined.

End existing_directory_examples.

(** ** The reserved split name *)

Section reserved_split_facts.
Import dataset_builder.
Context {Example Encoded Kwargs : Type} (self : Builder Example Encoded Kwargs).

Implicit Types (w : World Encoded) (split_dict : SplitDict).

Lemma world_eta w : set_log (log w) w = w.
Proof. by destruct w. Qed.

Lemma add_split_infos_cons s rest split_dict :
  add_split_infos (Encoded := Encoded) (s :: rest) split_dict
  = if String.eqb ALL (split_name s)
    then raise (ValueError reserved_split_msg)
    else
      run logging (INFO ("Generating split " +:+ split_name s)) then
      let* split_dict := lift (SplitDict_add split_dict s) in
      add_split_infos rest split_dict.
Proof. reflexivity. Qed.

Lemma generate_splits_cons max g rest split_dict :
  generate_splits self max (g :: rest) split_dict
  = let* split_dict := add_split_infos (split_info_list g) split_dict in
    let* w := get in
    let output_files :=
      _build_split_filenames self (_data_dir w) (split_info_list g) in
    run write_from_generator (generator_fn self max (gen_kwargs g)) output_files
    then generate_splits self max rest split_dict.
Proof. reflexivity. Qed.

(** Registering splits that are not the reserved alias only logs. *)
Lemma add_split_infos_ok split_info_list : ∀ split_dict w,
  Forall (λ s, split_name s ≠ ALL) split_info_list →
  ∃ split_dict' l,
    add_split_infos split_info_list split_dict w = (Ok split_dict', set_log l w).
Proof.
  induction split_info_list as [|s rest IH]; intros split_dict w Hnames.
  - exists split_dict, (log w). by rewrite world_eta.
  - apply Forall_cons in Hnames as [Hs Hrest]. rewrite add_split_infos_cons.
    assert (String.eqb ALL (split_name s) = false) as ->
      by (apply String.eqb_neq; congruence).
    unfold bind at 1, logging, modify. unfold bind at 1, lift, SplitDict_add.
    assert (String.eqb (split_name s) ALL = false) as ->
      by (by apply String.eqb_neq).
    destruct (IH (<[split_name s := s]> split_dict)
                (set_log (log w ++ [INFO ("Generating split " +:+ split_name s)]) w)
                Hrest) as (split_dict' & l & ->).
    by exists split_dict', l.
Qed.

(** Registering a list that holds the reserved alias raises, and only
    logs before it does. *)
Lemma add_split_infos_reserved split_info_list : ∀ split_dict w,
  Exists (λ s, split_name s = ALL) split_info_list →
  ∃ l,
    add_split_infos split_info_list split_dict w
    = (Raise (ValueError reserved_split_msg), set_log l w).
Proof.
  induction split_info_list as [|s rest IH]; intros split_dict w Hnames.
  - by apply Exists_nil in Hnames.
  - rewrite add_split_infos_cons.
    destruct (String.eqb_spec ALL (split_name s)) as [Heq|Hne].
    + exists (log w). by rewrite world_eta.
    + apply Exists_cons in Hnames as [Hs|Hrest]; [congruence |].
      unfold bind at 1, logging, modify. unfold bind at 1, lift, SplitDict_add.
      assert (String.eqb (split_name s) ALL = false) as ->
        by (apply String.eqb_neq; congruence).
      destruct (IH (<[split_name s := s]> split_dict)
                  (set_log (log w ++ [INFO ("Generating split " +:+ split_name s)]) w)
                  Hrest) as (l & ->).
      by exists l.
Qed.

(** The loop over the generation units stops at the first unit that
    declares the reserved alias: the units before it were handed to
    the shard writer, in order, and no other. *)
Lemma generate_splits_reserved max before unit after : ∀ split_dict w,
  Forall (λ g, Forall (λ s, split_name s ≠ ALL) (split_info_list g)) before →
  Exists (λ s, split_name s = ALL) (split_info_list unit) →
  ∃ e w' k,
    generate_splits self max (before ++ unit :: after) split_dict w = (Raise e, w')
    ∧ (k ≤ length before)%nat
    ∧ io w' = io w ++
        ((λ g, WriteFromGenerator
                 (_build_split_filenames self (_data_dir w) (split_info_list g))
                 (yields (generator_fn self max (gen_kwargs g))))
         <$> take k before)
    ∧ (Forall (λ g, raises (generator_fn self max (gen_kwargs g)) = None) before →
       e = ValueError reserved_split_msg ∧ k = length before).
Proof.
  induction before as [|g before IH]; intros split_dict w Hbefore Hunit.
  - destruct (add_split_infos_reserved _ split_dict w Hunit) as (l & Hadd).
    exists (ValueError reserved_split_msg), (set_log l w), 0%nat.
    rewrite app_nil_l, generate_splits_cons. unfold bind at 1. rewrite Hadd.
    split_and!; [done | done | by rewrite app_nil_r | done].
  - apply Forall_cons in Hbefore as [Hg Hbefore].
    destruct (add_split_infos_ok _ split_dict w Hg) as (split_dict' & l & Hadd).
    rewrite <- app_comm_cons, generate_splits_cons.
    unfold bind at 1. rewrite Hadd. unfold bind at 1, get.
    unfold bind at 1, write_from_generator, bind, perform, modify. simpl.
    destruct (raises (generator_fn self max (gen_kwargs g))) as [e|] eqn:Hraises.
    + eexists e, _, 1%nat. split_and!; [done | simpl; lia | done |].
      intros [Hnone _]%Forall_cons. congruence.
    + unfold ret.
      match goal with
      | |- context [generate_splits self max _ split_dict' ?w1] =>
          destruct (IH split_dict' w1 Hbefore Hunit)
            as (e & w' & k & Hrun & Hk & Hio & Hreserved)
      end.
      exists e, w', (S k). rewrite Hrun. simpl in Hio.
      split_and!; [done | simpl; lia | |].
      * rewrite Hio. simpl. by rewrite <- app_assoc.
      * intros [_ Hnone]%Forall_cons.
        destruct (Hreserved Hnone) as [-> ->]. done.
Qed.

(** C6, amended. When a generation unit declares the reserved alias,
    [_download_and_prepare] fails. The test is made unit by unit: the
    data directory is created first when it is missing, the units that
    come before the first offending one are handed to the shard writer,
    and nothing is written for the offending unit and those after it.
    The failure is the [ValueError] of the reserved name unless the
    generator of an earlier unit raised. *)
Theorem reserved_split_fails dl_manager max w before unit after downloaded :
  _split_generators self dl_manager = Ok (before ++ unit :: after, downloaded) →
  Forall (λ g, Forall (λ s, split_name s ≠ ALL) (split_info_list g)) before →
  Exists (λ s, split_name s = ALL) (split_info_list unit) →
  ∃ e w' k,
    _download_and_prepare self dl_manager max w = (Raise e, w')
    ∧ (k ≤ length before)%nat
    ∧ io w' = io w ++
        (if gfile_exists (fs w) (_data_dir w) then [] else [Makedirs (_data_dir w)])
        ++ ((λ g, WriteFromGenerator
                    (_build_split_filenames self (_data_dir w) (split_info_list g))
                    (yields (generator_fn self max (gen_kwargs g))))
            <$> take k before)
    ∧ (Forall (λ g, raises (generator_fn self max (gen_kwargs g)) = None) before →
       e = ValueError reserved_split_msg ∧ k = length before).
Proof.
  intros Hgens Hbefore Hunit.
  unfold _download_and_prepare.
  set (warn := match max with
               | Some n => logging (WARNING ("Splits capped at " +:+ str_int n +:+
                                             " examples max."))
               | None => ret tt
               end).
  assert (∃ l, warn w = (Ok tt, set_log l w)) as (l & Hwarn).
  { unfold warn. destruct max; [by eexists |].
    exists (log w). unfold ret. by rewrite world_eta. }
  unfold bind at 1. rewrite Hwarn. unfold bind at 1, get.
  change (fs (set_log l w)) with (fs w).
  change (_data_dir (set_log l w)) with (_data_dir w).
  rewrite Hgens.
  destruct (gfile_exists (fs w) (_data_dir w)) eqn:Hexists.
  - unfold bind at 1, ret. unfold bind at 1, lift.
    unfold bind at 1, modify. unfold bind at 1.
    match goal with
    | |- context [generate_splits self max _ ∅ ?w1] =>
        destruct (generate_splits_reserved max before unit after ∅ w1
                    Hbefore Hunit) as (e & w' & k & Hrun & Hk & Hio & Hreserved)
    end.
    cbn [fst snd] in Hrun |- *. rewrite Hrun. exists e, w', k.
    split_and!; [done | done | | done].
    rewrite Hio. done.
  - unfold bind at 1, gfile_makedirs, bind, perform, modify, lift.
    match goal with
    | |- context [generate_splits self max _ ∅ ?w1] =>
        destruct (generate_splits_reserved max before unit after ∅ w1
                    Hbefore Hunit) as (e & w' & k & Hrun & Hk & Hio & Hreserved)
    end.
    cbn [fst snd] in Hrun |- *. rewrite Hrun. exists e, w', k.
    split_and!; [done | done | | done].
    rewrite Hio. simpl. by rewrite <- app_assoc.
Qed.

End reserved_split_facts.

Section reserved_split_examples.
Import dataset_builder.

(** C6, as stated, fails: the second unit declares the reserved alias,
    and before the build fails on it the data directory has been
    created and the shards of the first unit have been written. *)
Lemma reserved_split_after_io :
  gfile_exists (fs examples.disk_2) "/data/mnist/2.0.0" = false
  ∧ (_download_and_prepare examples.mnist_2_all examples.dl_manager None
       (set_data_dir "/data/mnist/2.0.0" examples.disk_2)).1
    = Raise (ValueError reserved_split_msg)
  ∧ io (_download_and_prepare examples.mnist_2_all examples.dl_manager None
          (set_data_dir "/data/mnist/2.0.0" examples.disk_2)).2
    = [Makedirs "/data/mnist/2.0.0";
       WriteFromGenerator
         ["/data/mnist/2.0.0/mnist-train.tfrecord-0-of-2";
          "/data/mnist/2.0.0/mnist-train.tfrecord-1-of-2"]
         ["1"; "2"; "3"]]
  ∧ gfile_exists
      (fs (_download_and_prepare examples.mnist_2_all examples.dl_manager None
             (set_data_dir "/data/mnist/2.0.0" examples.disk_2)).2)
      "/data/mnist/2.0.0/mnist-train.tfrecord-0-of-2"
    = true.
Proof. split_and!; by vm_compute. Qed.

(** The unit of the train split comes before the unit that declares
    the reserved alias. *)
Lemma reserved_split_fails_mnist :
  (_split_generators examples.mnist_2_all examples.dl_manager
   = Ok ([ {| split_info_list := [examples.split_of "train"];
              gen_kwargs := "train.zip" |} ]
         ++ {| split_info_list := [examples.split_of "all"];
               gen_kwargs := "all.zip" |} :: [], 100)
   ∧ Forall (λ g, Forall (λ s, split_name s ≠ ALL) (split_info_list g))
       [ {| split_info_list := [examples.split_of "train"];
            gen_kwargs := "train.zip" |} ]
   ∧ Exists (λ s, split_name s = ALL) [examples.split_of "all"])
  ∧ ∃ e w' k,
      _download_and_prepare examples.mnist_2_all examples.dl_manager None
        (set_data_dir "/data/mnist/2.0.0" examples.disk_2)
      = (Raise e, w')
      ∧ (k ≤ 1)%nat
      ∧ io w'
        = [] ++ [Makedirs "/data/mnist/2.0.0"]
          ++ ((λ g, WriteFromGenerator
                      (_build_split_filenames examples.mnist_2_all
                         "/data/mnist/2.0.0" (split_info_list g))
                      (yields (generator_fn examples.mnist_2_all None
                                 (gen_kwargs g))))
              <$> take k [ {| split_info_list := [examples.split_of "train"];
                              gen_kwargs := "train.zip" |} ])
      ∧ (Forall (λ g, raises (generator_fn examples.mnist_2_all None
                                (gen_kwargs g)) = None)
           [ {| split_info_list := [examples.split_of "train"];
                gen_kwargs := "train.zip" |} ] →
         e = ValueError reserved_split_msg ∧ k = 1%nat).
Proof.
  assert (Forall (λ g, Forall (λ s, split_name s ≠ ALL) (split_info_list g))
            [ {| split_info_list := [examples.split_of "train"];
                 gen_kwargs := "train.zip" |} ]) as Hbefore
    by (repeat constructor; simpl; discriminate).
  assert (Exists (λ s, split_name s = ALL) [examples.split_of "all"]) as Hunit
    by (left; reflexivity).
  split; [split_and!; [reflexivity | exact Hbefore | exact Hunit] |].
  apply (reserved_split_fails examples.mnist_2_all examples.dl_manager None
           (set_data_dir "/data/mnist/2.0.0" examples.disk_2)
           [ {| split_info_list := [examples.split_of "train"];
                gen_kwargs := "train.zip" |} ]
           {| split_info_list := [examples.split_of "all"];
              gen_kwargs := "all.zip" |} [] 100);
    [reflexivity | exact Hbefore | exact Hunit].
Defined.

End reserved_split_examples.

(** ** Versions on disk *)

Section order_facts.
Import dataset_builder.

Global Instance N_compare_order : CompareOrder N.compare.
Proof.
  split.
  - intros x y. apply N.compare_antisym.
  - intros x y. apply N.compare_eq.
  - intros x y z. rewrite !N.compare_lt_iff. apply N.lt_trans.
Qed.

Lemma ascii_compare_Lt_trans (a b c : ascii) :
  Ascii.compare a b = Lt → Ascii.compare b c = Lt → Ascii.compare a c = Lt.
Proof. unfold Ascii.compare. rewrite !N.compare_lt_iff. apply N.lt_trans. Qed.

Global Instance string_compare_order : CompareOrder String.compare.
Proof.
  split.
  - intros x y. apply String.compare_antisym.
  - intros x y. apply String.compare_eq_iff.
  - intros x. induction x as [|a x IH]; intros [|b y] [|c z]; simpl; try done.
    destruct (Ascii.compare a b) eqn:Hab; [| |done].
    + apply Ascii.compare_eq_iff in Hab as ->.
      destruct (Ascii.compare b c); [apply IH | done | done].
    + destruct (Ascii.compare b c) eqn:Hbc; [| |done].
      * apply Ascii.compare_eq_iff in Hbc as <-. by rewrite Hab.
      * by rewrite (ascii_compare_Lt_trans _ _ _ Hab Hbc).
Qed.

Global Instance lex_compare_order {A B} (c1 : A → A → comparison)
    (c2 : B → B → comparison) `{!CompareOrder c1, !CompareOrder c2} :
  CompareOrder (lex_compare c1 c2).
Proof.
  split; unfold lex_compare.
  - intros [a b] [a' b']. simpl. rewrite (compare_flip (c := c1) a a').
    destruct (c1 a a'); simpl; [apply compare_flip | done | done].
  - intros [a b] [a' b']. simpl.
    destruct (c1 a a') eqn:Ha; [|done..]. intros Hb.
    by rewrite (compare_Eq _ _ Ha), (compare_Eq _ _ Hb).
  - intros [a b] [a' b'] [a'' b'']. simpl.
    destruct (c1 a a') eqn:H1; [| |done].
    + apply compare_Eq in H1 as ->.
      destruct (c1 a' a''); [apply compare_Lt_trans | done | done].
    + destruct (c1 a' a'') eqn:H2; [| |done].
      * apply compare_Eq in H2 as <-. by rewrite H1.
      * by rewrite (compare_Lt_trans _ _ _ H1 H2).
Qed.

(** The order [x >= y] of a comparison is total and transitive. *)
Lemma compare_ge_total {A} (c : A → A → comparison) `{!CompareOrder c} x y :
  c x y ≠ Lt ∨ c y x ≠ Lt.
Proof. rewrite (compare_flip (c := c) x y). destruct (c x y); simpl; auto. Qed.

Lemma compare_ge_trans {A} (c : A → A → comparison) `{!CompareOrder c} x y z :
  c x y ≠ Lt → c y z ≠ Lt → c x z ≠ Lt.
Proof.
  intros Hxy Hyz Hxz.
  destruct (c x y) eqn:H1; [| done |].
  - apply compare_Eq in H1 as ->. done.
  - destruct (c y z) eqn:H2; [| done |].
    + apply compare_Eq in H2 as ->. congruence.
    + assert (c z y = Lt) as Hzy by (by rewrite (compare_flip (c := c) y z), H2).
      assert (c y x = Lt) as Hyx by (by rewrite (compare_flip (c := c) x y), H1).
      pose proof (compare_Lt_trans _ _ _ Hxz Hzy) as Hxy'. congruence.
Qed.

Lemma tuple_compare_key x y :
  tuple_compare x y
  = lex_compare N.compare
      (lex_compare N.compare (lex_compare N.compare String.compare))
      (tuple_key x) (tuple_key y).
Proof.
  unfold tuple_compare, Version_compare, lex_compare, tuple_key. simpl.
  destruct (major x.1 ?= major y.1)%N; [|done..].
  destruct (minor x.1 ?= minor y.1)%N; [|done..].
  by destruct (patch x.1 ?= patch y.1)%N.
Qed.

Global Instance tuple_ge_total : Total tuple_ge.
Proof.
  intros x y. unfold tuple_ge. rewrite !tuple_compare_key.
  apply compare_ge_total; apply _.
Qed.

Global Instance tuple_ge_trans : Transitive tuple_ge.
Proof.
  intros x y z. unfold tuple_ge. rewrite !tuple_compare_key.
  apply compare_ge_trans; apply _.
Qed.

Lemma tuple_ge_version x y : tuple_ge x y → Version_le y.1 x.1.
Proof.
  unfold tuple_ge, Version_le, tuple_compare. intros Hge Hgt.
  assert (Version_compare x.1 y.1 = Lt) as Hlt; [|by rewrite Hlt in Hge].
  pose proof (tuple_compare_key (x.1, EmptyString) (y.1, EmptyString)) as Hx.
  pose proof (tuple_compare_key (y.1, EmptyString) (x.1, EmptyString)) as Hy.
  unfold tuple_compare in Hx, Hy. simpl in Hx, Hy.
  rewrite (compare_flip (c := lex_compare N.compare
                          (lex_compare N.compare
                             (lex_compare N.compare String.compare)))
             (tuple_key (y.1, EmptyString)) (tuple_key (x.1, EmptyString)))
    in Hx.
  rewrite <- Hy in Hx. rewrite Hgt in Hx. simpl in Hx.
  by destruct (Version_compare x.1 y.1).
Qed.

Lemma Version_le_antisym v w : Version_le v w → Version_le w v → v = w.
Proof.
  unfold Version_le. intros Hvw Hwv.
  pose proof (tuple_compare_key (v, EmptyString) (w, EmptyString)) as Hv.
  pose proof (tuple_compare_key (w, EmptyString) (v, EmptyString)) as Hw.
  unfold tuple_compare in Hv, Hw. simpl in Hv, Hw.
  rewrite (compare_flip (c := lex_compare N.compare
                          (lex_compare N.compare
                             (lex_compare N.compare String.compare)))
             (tuple_key (v, EmptyString)) (tuple_key (w, EmptyString)))
    in Hw.
  rewrite <- Hv in Hw.
  destruct (Version_compare v w) eqn:Hc; [| |done].
  - symmetry in Hv.
    apply (compare_Eq (c := lex_compare N.compare
                        (lex_compare N.compare
                           (lex_compare N.compare String.compare)))) in Hv.
    destruct v, w. unfold tuple_key in Hv. simpl in Hv. by simplify_eq.
  - simpl in Hw. by destruct (Version_compare w v).
Qed.

End order_facts.

Section build_data_dir_facts.
Import dataset_builder.
Context {Example Encoded Kwargs : Type} (self : Builder Example Encoded Kwargs).

Implicit Types (w : World Encoded).

Lemma parsed_versions (names : list string) :
  (omap (λ dir_name, (λ v, (v, dir_name)) <$> Version_parse dir_name) names).*1
  = omap Version_parse names.
Proof.
  induction names as [|dir_name names IH]; [done |]. simpl.
  destruct (Version_parse dir_name); simpl; [f_equal |]; apply IH.
Qed.

(** The first tuple of the sorted list holds the newest version. *)
Lemma other_versions_head w other_version dir_name rest newest :
  _other_versions_on_disk (fs w) (builder_dir self)
  = (other_version, dir_name) :: rest →
  newest ∈ versions_on_disk self (fs w) →
  Forall (λ v, Version_le v newest) (versions_on_disk self (fs w)) →
  other_version = newest.
Proof.
  unfold _other_versions_on_disk, versions_on_disk.
  destruct (gfile_exists (fs w) (builder_dir self)); [|done].
  rewrite <- parsed_versions.
  set (found := omap _ (gfile_listdir (fs w) (builder_dir self))).
  intros Hsorted Hnewest Hle.
  pose proof (StronglySorted_merge_sort tuple_ge found) as Hstrong.
  pose proof (merge_sort_Permutation tuple_ge found) as Hperm.
  rewrite Hsorted in Hstrong, Hperm.
  apply Version_le_antisym.
  - eapply Forall_forall in Hle; [done |].
    rewrite <- Hperm. simpl. left.
  - apply list_elem_of_fmap in Hnewest as ([v n] & -> & Hin).
    rewrite <- Hperm in Hin. apply elem_of_cons in Hin as [[= -> ->]|Hin].
    + unfold Version_le. simpl.
      pose proof (tuple_ge_version (other_version, dir_name)
                    (other_version, dir_name)) as Hrefl.
      apply Hrefl. destruct (total tuple_ge (other_version, dir_name)
                               (other_version, dir_name)); done.
    + apply StronglySorted_inv in Hstrong as [_ Hhead].
      eapply Forall_forall in Hhead; [|done].
      by apply tuple_ge_version in Hhead.
Qed.

(** C7, amended. [_build_data_dir] returns
    [root/dataset_name[/config_name]/version] and changes nothing but
    the log. Entries of the builder directory whose names are not
    versions are passed over. When the newest of the versions found
    differs from the declared one, one warning that names this newest
    version is logged; when it is the declared one, or when no version
    is found, nothing is logged. *)
Theorem build_data_dir_warns w :
  ∃ l,
    _build_data_dir self w
    = (Ok (path_join (builder_dir self) (Version_str (_version self))),
       set_log l w)
    ∧ (gfile_exists (fs w) (builder_dir self) = false
       ∨ versions_on_disk self (fs w) = [] → l = log w)
    ∧ (∀ newest,
         gfile_exists (fs w) (builder_dir self) = true →
         newest ∈ versions_on_disk self (fs w) →
         Forall (λ v, Version_le v newest) (versions_on_disk self (fs w)) →
         l = log w ++
             (if decide (newest = _version self) then []
              else [WARNING (different_version_msg self newest)])).
Proof.
  unfold _build_data_dir. fold (builder_dir self).
  unfold bind at 1, get.
  destruct (_other_versions_on_disk (fs w) (builder_dir self))
    as [|[other_version dir_name] rest] eqn:Hsorted.
  - exists (log w). unfold bind, ret. rewrite world_eta.
    split_and!; [done | done |].
    intros newest Hexists Hnewest _. exfalso.
    unfold _other_versions_on_disk in Hsorted. rewrite Hexists in Hsorted.
    apply (f_equal length) in Hsorted.
    rewrite (Permutation_length (merge_sort_Permutation _ _)) in Hsorted.
    apply nil_length_inv, (f_equal (fmap fst)) in Hsorted.
    rewrite parsed_versions in Hsorted. fold (versions_on_disk self (fs w)) in Hsorted.
    rewrite Hsorted in Hnewest. by apply elem_of_nil in Hnewest.
  - assert (gfile_exists (fs w) (builder_dir self) = true
            ∧ versions_on_disk self (fs w) ≠ []) as [Hexists Hfound].
    { unfold _other_versions_on_disk in Hsorted.
      destruct (gfile_exists (fs w) (builder_dir self)); [|done].
      split; [done |]. intros Hnil.
      unfold versions_on_disk in Hnil. rewrite <- parsed_versions in Hnil.
      apply fmap_nil_inv in Hnil. rewrite Hnil in Hsorted. done. }
    case_bool_decide as Hother.
    + exists (log w ++ [WARNING (different_version_msg self other_version)]).
      split_and!; [done | |].
      * intros [Hno | Hnil]; congruence.
      * intros newest _ Hnewest Hle.
        rewrite <- (other_versions_head w _ _ _ newest Hsorted Hnewest Hle).
        by rewrite decide_False.
    + exists (log w). unfold bind, ret. rewrite world_eta.
      split_and!; [done | done |].
      intros newest _ Hnewest Hle.
      rewrite <- (other_versions_head w _ _ _ newest Hsorted Hnewest Hle).
      rewrite decide_True; [by rewrite app_nil_r |].
      by destruct (decide (other_version = _version self)).
Qed.

End build_data_dir_facts.

Section build_data_dir_examples.
Import dataset_builder.

(** C7, as stated, fails: version 0.9.0 is on disk beside the declared
    version 1.0.0, it parses and it differs, and no warning is logged. *)
Lemma older_version_not_reported :
  "0.9.0" ∈ gfile_listdir (fs examples.disk_1) "/data/mnist"
  ∧ Version_parse "0.9.0" = Some (examples.version_of 0 9 0)
  ∧ examples.version_of 0 9 0 ≠ _version examples.mnist_1
  ∧ _build_data_dir examples.mnist_1 examples.disk_1
    = (Ok "/data/mnist/1.0.0", examples.disk_1)
  ∧ log examples.disk_1 = [].
Proof.
  split_and!; [| by vm_compute | done | by vm_compute | done].
  assert (gfile_listdir (fs examples.disk_1) "/data/mnist"
          = ["1.0.0"; "2.0.0.incomplete"; "0.9.0"]) as ->
    by (by vm_compute).
  set_solver.
Qed.

(** Version 2.0.0 is declared and version 1.0.0 is the newest on disk:
    the warning names 1.0.0. *)
Lemma build_data_dir_warns_newer :
  ∃ l,
    _build_data_dir examples.mnist_2 examples.disk_2
    = (Ok "/data/mnist/2.0.0", set_log l examples.disk_2)
    ∧ l = [WARNING "Found a different version 1.0.0 of dataset mnist in data_dir /data. Using currently defined version 2.0.0."].
Proof.
  destruct (build_data_dir_warns examples.mnist_2 examples.disk_2)
    as (l & Hrun & _ & Hnewest).
  exists l. split; [exact Hrun |].
  assert (versions_on_disk examples.mnist_2 (fs examples.disk_2)
          = [examples.version_of 1 0 0; examples.version_of 0 9 0]) as Hfound
    by (vm_compute; reflexivity).
  rewrite (Hnewest (examples.version_of 1 0 0)).
  - reflexivity.
  - vm_compute; reflexivity.
  - rewrite Hfound. left.
  - rewrite Hfound. repeat constructor; vm_compute; discriminate.
Defined.

End build_data_dir_examples.
(** ** The checksum registry: errors, cache and frame *)

Section registry_facts.
Import checksums_management.

Implicit Types (s : state) (d : SizesChecksums) (path url : string).


Lemma get_sizes_checksums_cached s path d :
  memo_get_sizes_checksums s !! path = Some d →
  _get_sizes_checksums path s = (Ok d, s).
Proof.
  intros Hmemo. unfold _get_sizes_checksums, memoize, bind, get, ret.
  by rewrite Hmemo.
Qed.

Lemma parse_lines_raise lines : ∀ d e,
  parse_lines lines d = Raise e → ∃ msg, e = ValueError msg.
Proof.
  induction lines as [|line lines IH]; intros d e; [done |].
  destruct line as [|a line]; [apply IH |].
  rewrite parse_lines_cons by done.
  destruct (rsplit2 sp (String a line)) as [|url [|size [|checksum [|]]]];
    try (intros [= <-]; eauto).
  destruct (int size); [apply IH | intros [= <-]; eauto].
Qed.







(** X4. A load that raises caches nothing. The error is that of the
    missing file or a [ValueError] of the parser, the state is
    unchanged, and once the file holds content that parses, the same call
    returns what the file then holds. *)
Theorem failed_load_not_cached path s e s' :
  _get_sizes_checksums path s = (Raise e, s') →
  s' = s
  ∧ (e = NotFoundError path ∨ ∃ msg, e = ValueError msg)
  ∧ ∀ content d,
      parse_checksums content = Ok d →
      (_get_sizes_checksums path
         (set_files (<[path := content]> (files s)) s)).1 = Ok d.
Proof.
  unfold _get_sizes_checksums, memoize, bind at 1, get.
  destruct (memo_get_sizes_checksums s !! path) as [cached|] eqn:Hmemo; [done |].
  unfold _read_file, bind, get, lift, raise, ret, modify.
  destruct (files s !! path) as [content|] eqn:Hfile; simpl.
  - destruct (parse_checksums content) as [d|e'] eqn:Hparse; [done |].
    intros [= <- <-]. split_and!; [done | |].
    + right. by eapply parse_lines_raise.
    + intros content' d Hparse'. rewrite Hmemo. simpl.
      rewrite lookup_insert_eq. simpl. by rewrite Hparse'.
  - intros [= <- <-]. split_and!; [done | by left |].
    intros content' d Hparse'. rewrite Hmemo. simpl.
    rewrite lookup_insert_eq. simpl. by rewrite Hparse'.
Qed.

(** X5. Once a checksum file was loaded, later loads of the same path
    return the dictionary of the first reading whatever the files have
    become since (rewritten, emptied, deleted), and change nothing. *)
Theorem loaded_once_ignores_file path s d s1 :
  _get_sizes_checksums path s = (Ok d, s1) →
  ∀ current_files,
    _get_sizes_checksums path (set_files current_files s1)
    = (Ok d, set_files current_files s1).
Proof.
  intros Hload current_files.
  destruct (get_sizes_checksums_inv _ _ _ _ Hload) as (cache & -> & Hcache).
  destruct (Hcache d eq_refl) as [Hd _].
  by apply get_sizes_checksums_cached.
Qed.



Lemma failed_load_not_cached_retry :
  _get_sizes_checksums "/url_checksums/cifar.txt" (examples.two_registries "oops")
  = (Raise (ValueError "not enough values to unpack (expected 3)"),
     examples.two_registries "oops")
  ∧ (_get_sizes_checksums "/url_checksums/cifar.txt"
       (set_files (<["/url_checksums/cifar.txt" :=
                      "http://b 1 cc" +:+ String nl EmptyString]>
                     (files (examples.two_registries "oops")))
          (examples.two_registries "oops"))).1
    = Ok {[ "http://b" := (1, "cc") ]}.
Proof.
  assert (_get_sizes_checksums "/url_checksums/cifar.txt"
            (examples.two_registries "oops")
          = (Raise (ValueError "not enough values to unpack (expected 3)"),
             examples.two_registries "oops")) as Hload
    by (vm_compute; reflexivity).
  split; [exact Hload |].
  apply (failed_load_not_cached _ _ _ _ Hload).
  vm_compute. reflexivity.
Defined.

Lemma loaded_once_ignores_file_deleted :
  _get_sizes_checksums "/url_checksums/mnist.txt"
    (set_files ∅ (examples.registry_read false))
  = (Ok examples.registered, set_files ∅ (examples.registry_read false)).
Proof.
  apply (loaded_once_ignores_file "/url_checksums/mnist.txt"
           (examples.registry false)).
  vm_compute. reflexivity.
Defined.







End registry_facts.

(** ** The line format: duplicates, empty lines, malformed lines *)

Section line_facts.
Import checksums_management PyText.

Implicit Types (d : SizesChecksums) (url line content : string).
Implicit Types (items : list (string * (Z * string))).

Lemma fold_insert_lookup_ne items : ∀ d url,
  url ∉ items.*1 →
  fold_left (λ acc item, <[item.1 := item.2]> acc) items d !! url = d !! url.
Proof.
  induction items as [|[u t] items IH]; intros d url Hnot; [done |].
  simpl in *. apply not_elem_of_cons in Hnot as [Hne Hnot].
  rewrite IH by done. by rewrite lookup_insert_ne.
Qed.

(** X9. When a checksum file holds several lines for one URL, the last
    of them gives the size and the checksum of that URL. *)
Theorem last_line_wins (before after : list (string * (Z * string))) url tuple :
  Forall (λ item, writable item.1 item.2) (before ++ (url, tuple) :: after) →
  url ∉ after.*1 →
  ∃ d, parse_checksums (write_lines (before ++ (url, tuple) :: after)) = Ok d
       ∧ d !! url = Some tuple.
Proof.
  intros Hitems Hlast. eexists. split.
  - unfold parse_checksums. rewrite split_write_lines by done.
    by apply parse_lines_written.
  - rewrite fold_left_app. simpl. rewrite fold_insert_lookup_ne by done.
    by rewrite lookup_insert_eq.
Qed.

Lemma last_line_wins_twice :
  ∃ d, parse_checksums
         (write_lines [("http://a", (1, "aa")); ("http://b", (2, "bb"));
                       ("http://a", (3, "cc"))]) = Ok d
       ∧ d !! "http://a" = Some (3, "cc").
Proof.
  apply (last_line_wins [("http://a", (1, "aa")); ("http://b", (2, "bb"))] []
           "http://a" (3, "cc")).
  - repeat constructor.
  - simpl. apply not_elem_of_nil.
Defined.

Lemma split_nonempty sep s : split sep s ≠ [].
Proof.
  destruct s as [|x s]; simpl; [done |].
  destruct (Ascii.eqb x sep); [done |]. by destruct (split sep s).
Qed.

(** The pieces around a separator are the pieces of both sides. *)
Lemma split_sep_app sep (a b : string) :
  split sep (a +:+ String sep b) = split sep a ++ split sep b.
Proof.
  induction a as [|x a IH]; rewrite ?append_cons, ?append_nil; simpl.
  - by rewrite Ascii.eqb_refl.
  - destruct (Ascii.eqb x sep); [by rewrite IH |].
    rewrite IH. pose proof (split_nonempty sep a).
    by destruct (split sep a).
Qed.

Lemma parse_lines_app (lines1 lines2 : list string) : ∀ d,
  parse_lines (lines1 ++ lines2) d
  = match parse_lines lines1 d with
    | Ok d' => parse_lines lines2 d'
    | Raise e => Raise e
    end.
Proof.
  induction lines1 as [|line lines1 IH]; intros d; [done |].
  rewrite <- app_comm_cons.
  destruct line as [|a line]; [apply IH |].
  rewrite !parse_lines_cons by done.
  destruct (rsplit2 sp (String a line)) as [|u [|size [|checksum [|]]]]; try done.
  destruct (int size); [apply IH | done].
Qed.

Lemma split_last sep (a : string) :
  split sep (a +:+ String sep EmptyString) = split sep a ++ [EmptyString].
Proof. apply split_sep_app. Qed.

(** X10. Empty lines do not change what a checksum file parses to, or
    whether it parses: a doubled newline inside the content, a newline
    before the first line, and a newline after the last one. *)
Theorem empty_lines_ignored (a b : string) :
  parse_checksums (a +:+ String nl (String nl b))
  = parse_checksums (a +:+ String nl b)
  ∧ parse_checksums (String nl b) = parse_checksums b
  ∧ parse_checksums (a +:+ String nl EmptyString) = parse_checksums a.
Proof.
  unfold parse_checksums. split_and!.
  - rewrite !split_sep_app, !parse_lines_app. cbn [split].
    rewrite Ascii.eqb_refl. by destruct (parse_lines (split nl a) ∅).
  - cbn [split]. by rewrite Ascii.eqb_refl.
  - rewrite split_last, parse_lines_app.
    by destruct (parse_lines (split nl a) ∅).
Qed.

Lemma count_append c (a b : string) :
  count c (a +:+ b) = (count c a + count c b)%nat.
Proof.
  induction a as [|x a IH]; [done |]. rewrite append_cons. simpl.
  destruct (Ascii.eqb x c); by rewrite IH.
Qed.

Lemma count_contains c s : contains c s = false → count c s = 0%nat.
Proof.
  induction s as [|x s IH]; simpl; [done |].
  by destruct (Ascii.eqb x c).
Qed.

(** A line unpacks into three fields when it holds two separators. *)
Lemma rsplit2_three sep s first middle last :
  rsplit2 sep s = [first; middle; last] → (2 ≤ count sep s)%nat.
Proof.
  unfold rsplit2.
  destruct (rsplit1 sep s) as [[rest l]|] eqn:H1; [|done].
  destruct (rsplit1 sep rest) as [[f m]|] eqn:H2; [|done].
  intros _. apply rsplit1_Some in H1 as [-> _]. apply rsplit1_Some in H2 as [-> _].
  rewrite !count_append. simpl. rewrite !Ascii.eqb_refl. lia.
Qed.

(** X11. A file that holds a non-empty line with fewer than two spaces
    does not parse: the load fails with a [ValueError], wherever the
    line stands. *)
Theorem short_line_fails content line :
  line ∈ split nl content →
  line ≠ EmptyString →
  (count sp line < 2)%nat →
  ∃ msg, parse_checksums content = Raise (ValueError msg).
Proof.
  unfold parse_checksums. generalize (∅ : SizesChecksums).
  induction (split nl content) as [|l lines IH]; intros d Hin Hne Hcount.
  - by apply elem_of_nil in Hin.
  - apply elem_of_cons in Hin as [<-|Hin].
    + rewrite parse_lines_cons by done.
      destruct (rsplit2 sp line) as [|u [|size [|checksum [|]]]] eqn:Hsplit;
        eauto.
      apply rsplit2_three in Hsplit. lia.
    + destruct l as [|a l]; [by apply IH |].
      rewrite parse_lines_cons by done.
      destruct (rsplit2 sp (String a l)) as [|u [|size [|checksum [|]]]]; eauto.
      destruct (int size); [by apply IH | eauto].
Qed.

Lemma short_line_fails_second_line :
  ∃ msg, parse_checksums ("http://a 1 aa" +:+ String nl "http://b 2")
         = Raise (ValueError msg).
Proof.
  apply (short_line_fails ("http://a 1 aa" +:+ String nl "http://b 2") "http://b 2").
  - vm_compute. right. left.
  - done.
  - vm_compute. lia.
Defined.

(** X12. Whatever a checksum file parses to can be written back and read
    again without loss: the sorted lines of the parsed dictionary parse
    to the same dictionary, also when the file held empty lines,
    repeated URLs or lines in another order. *)
Theorem rewrite_is_lossless content d :
  parse_checksums content = Ok d →
  parse_checksums (write_lines (sorted_items d)) = Ok d.
Proof.
  intros Hparse. apply parse_write_lines. unfold parse_checksums in Hparse.
  eapply parse_lines_writable; [| |done].
  - apply Forall_forall. intros line. apply split_pieces.
  - apply map_Forall_empty.
Qed.

Lemma rewrite_is_lossless_unsorted :
  parse_checksums
    (write_lines (sorted_items {[ "http://b" := (2, "bb"); "http://a" := (1, "aa") ]}))
  = Ok {[ "http://b" := (2, "bb"); "http://a" := (1, "aa") ]}.
Proof.
  apply (rewrite_is_lossless
           ("http://b 2 bb" +:+ String nl (String nl "http://a 1 aa"))).
  vm_compute. reflexivity.
Defined.

End line_facts.

(** ** The example generator: errors *)

Section generator_error_facts.
Import dataset_builder.
Context {Example Encoded Kwargs : Type} (self : Builder Example Encoded Kwargs).

Lemma generator_loop_prefix max examples pending : ∀ i,
  ∃ k, (k ≤ length examples)%nat
       ∧ Forall2 (λ ex record, encode_example self ex = Ok record)
           (take k examples)
           (yields (generator_loop self max i examples pending)).
Proof.
  induction examples as [|ex examples IH]; intros i.
  - exists 0%nat. split; [done | constructor].
  - simpl. destruct (cap_reached max i).
    + exists 0%nat. split; [lia | constructor].
    + destruct (encode_example self ex) as [record|e] eqn:Hex.
      * destruct (IH (i + 1)) as (k & Hk & Henc). exists (S k).
        split; [simpl; lia |]. simpl. by constructor.
      * exists 0%nat. split; [lia | constructor].
Qed.

(** X13. Whatever the cap, the encoder and the source, the records the
    generator yields are the encodings, in order, of a prefix of the
    examples of the source: no example is skipped, repeated or
    reordered. *)
Theorem generated_records_prefix max kwargs :
  ∃ k, (k ≤ length (yields (_generate_examples self kwargs)))%nat
       ∧ Forall2 (λ ex record, encode_example self ex = Ok record)
           (take k (yields (_generate_examples self kwargs)))
           (yields (generator_fn self max kwargs)).
Proof. apply generator_loop_prefix. Qed.

Lemma generator_loop_app max before rest pending : ∀ i records,
  (∀ j, i ≤ j < i + Z.of_nat (length before) → cap_reached max j = false) →
  Forall2 (λ ex record, encode_example self ex = Ok record) before records →
  generator_loop self max i (before ++ rest) pending
  = {| yields := records ++
         yields (generator_loop self max (i + Z.of_nat (length before)) rest pending);
       raises :=
         raises (generator_loop self max (i + Z.of_nat (length before)) rest pending) |}.
Proof.
  induction before as [|ex before IH]; intros i records Hcap Henc.
  - apply Forall2_nil_inv_l in Henc as ->. simpl. rewrite Z.add_0_r.
    by destruct (generator_loop self max i rest pending).
  - apply Forall2_cons_inv_l in Henc as (record & records' & Hex & Henc & ->).
    simpl. rewrite Hcap by (simpl; lia). rewrite Hex.
    rewrite (IH (i + 1) records') by (try done; intros j Hj; apply Hcap; simpl; lia).
    replace (i + 1 + Z.of_nat (length before))
      with (i + Z.of_nat (length (ex :: before))) by (simpl; lia).
    done.
Qed.

(** X14. When the encoder rejects an example that the cap has not cut
    off, the generator yields the encodings of the examples before it
    and then raises the error of the encoder; the shard writer is handed
    exactly these records and the build fails with that error. *)
Theorem encoder_error_stops_generation max kwargs before ex after records e :
  yields (_generate_examples self kwargs) = before ++ ex :: after →
  Forall2 (λ ex record, encode_example self ex = Ok record) before records →
  encode_example self ex = Raise e →
  (∀ j, 0 ≤ j ≤ Z.of_nat (length before) → cap_reached max j = false) →
  generator_fn self max kwargs = {| yields := records; raises := Some e |}
  ∧ ∀ output_files w,
      (write_from_generator (generator_fn self max kwargs) output_files w).1
      = Raise e
      ∧ io (write_from_generator (generator_fn self max kwargs) output_files w).2
        = io w ++ [WriteFromGenerator output_files records].
Proof.
  intros Hyields Henc Hex Hcap.
  assert (generator_fn self max kwargs = {| yields := records; raises := Some e |})
    as Hgen.
  { unfold generator_fn. rewrite Hyields.
    rewrite (generator_loop_app _ _ _ _ 0 records)
      by (try done; intros j Hj; apply Hcap; lia).
    simpl. rewrite Hcap by lia. rewrite Hex. simpl. by rewrite app_nil_r. }
  split; [done |]. intros output_files w. rewrite Hgen.
  by unfold write_from_generator, bind, perform, modify, raise.
Qed.

Lemma generator_loop_raises n examples pending records : ∀ i,
  0 < n → 0 ≤ i ≤ n →
  Forall2 (λ ex record, encode_example self ex = Ok record) examples records →
  raises (generator_loop self (Some n) i examples pending)
  = if bool_decide (n - i < Z.of_nat (length examples)) then None else pending.
Proof.
  intros i Hn Hi Henc. revert i Hi.
  induction Henc as [|ex record examples records Hex _ IH]; intros i Hi.
  - simpl. case_bool_decide; [lia | done].
  - cbn [generator_loop]. unfold cap_reached.
    assert ((n =? 0) = false) as -> by lia. simpl negb. cbn [andb].
    destruct (Z.leb_spec n i) as [Hle|Hlt].
    + simpl. case_bool_decide; [done | lia].
    + rewrite Hex. cbn [raises]. rewrite IH by lia.
      cbn [length]. repeat case_bool_decide; (done || lia).
Qed.

(** X15. A source that raises after its last example: without a cap the
    error reaches the shard writer; with a positive cap [n] it does so
    only when [n] is at least the number of examples, because the loop
    then asks the source for one more item. A smaller cap ends the loop
    before the error. *)
Theorem cap_hides_source_error n kwargs records e :
  0 < n →
  raises (_generate_examples self kwargs) = Some e →
  Forall2 (λ ex record, encode_example self ex = Ok record)
    (yields (_generate_examples self kwargs)) records →
  raises (generator_fn self None kwargs) = Some e
  ∧ raises (generator_fn self (Some n) kwargs)
    = if bool_decide (n < Z.of_nat (length records)) then None else Some e.
Proof.
  intros Hn Hraises Henc. split.
  - unfold generator_fn.
    rewrite (generator_loop_all self None 0 _ _ records); done.
  - unfold generator_fn.
    rewrite (generator_loop_raises n _ _ records) by (done || lia).
    rewrite Z.sub_0_r, Hraises.
    by rewrite (Forall2_length _ _ _ Henc).
Qed.

End generator_error_facts.

Section generator_error_examples.
Import dataset_builder.

Lemma encoder_error_stops_generation_picky :
  generator_fn more_examples.picky None "test.zip"
  = {| yields := ["1"]; raises := Some (ValueError "negative example") |}.
Proof.
  eapply proj1.
  apply (encoder_error_stops_generation more_examples.picky None "test.zip"
           [1] (-2) [3] ["1"] (ValueError "negative example")).
  - reflexivity.
  - repeat constructor.
  - reflexivity.
  - intros j _. reflexivity.
Defined.

Lemma cap_hides_source_error_truncated :
  raises (generator_fn more_examples.truncated None "train.zip")
  = Some (NotFoundError "train.zip")
  ∧ raises (generator_fn more_examples.truncated (Some 2) "train.zip") = None.
Proof.
  apply (cap_hides_source_error more_examples.truncated 2 "train.zip"
           ["1"; "2"; "3"] (NotFoundError "train.zip")).
  - lia.
  - reflexivity.
  - repeat constructor.
Defined.

End generator_error_examples.

(** ** The build: what is written, and when *)

Section build_facts.
Import dataset_builder.
Context {Example Encoded Kwargs : Type} (self : Builder Example Encoded Kwargs).

Implicit Types (w : World Encoded) (split_dict : SplitDict).

(** The split dictionary after the declared splits were added. *)
Lemma add_split_infos_run split_info_list : ∀ split_dict w,
  ∃ r l,
    add_split_infos split_info_list split_dict w = (r, set_log l w)
    ∧ (Forall (λ s, split_name s ≠ ALL) split_info_list →
       r = Ok (foldl (λ d s, <[split_name s := s]> d) split_dict split_info_list)).
Proof.
  induction split_info_list as [|s rest IH]; intros split_dict w.
  - exists (Ok split_dict), (log w). by rewrite world_eta.
  - rewrite add_split_infos_cons.
    destruct (String.eqb_spec ALL (split_name s)) as [Heq|Hne].
    + eexists _, (log w). rewrite world_eta. split; [done |].
      intros [Hs _]%Forall_cons. congruence.
    + unfold bind at 1, logging, modify. unfold bind at 1, lift, SplitDict_add.
      assert (String.eqb (split_name s) ALL = false) as ->
        by (apply String.eqb_neq; congruence).
      destruct (IH (<[split_name s := s]> split_dict)
                  (set_log (log w ++ [INFO ("Generating split " +:+ split_name s)]) w))
        as (r & l & -> & Hr).
      exists r, l. split; [done |]. intros [_ Hrest]%Forall_cons. by apply Hr.
Qed.

(** The loop over the generation units appends shard writes, adds
    paths, and changes nothing else but the log. *)
Lemma generate_splits_frame max split_generators : ∀ split_dict w r w',
  generate_splits self max split_generators split_dict w = (r, w') →
  ∃ writes,
    io w' = io w ++ writes
    ∧ Forall (λ e, ∃ output_files records,
                e = WriteFromGenerator output_files records) writes
    ∧ _data_dir w' = _data_dir w
    ∧ persisted w' = persisted w
    ∧ info w' = info w
    ∧ downloaded_size w' = downloaded_size w
    ∧ fs w ⊆ fs w'.
Proof.
  induction split_generators as [|g rest IH]; intros split_dict w r w'.
  - intros [= <- <-]. exists []. rewrite app_nil_r. by split_and!.
  - rewrite generate_splits_cons. unfold bind at 1.
    destruct (add_split_infos_run (split_info_list g) split_dict w)
      as (r1 & l & -> & _).
    destruct r1 as [split_dict'|e].
    + unfold bind at 1, get.
      unfold bind at 1, write_from_generator, bind, perform, modify. simpl.
      destruct (raises (generator_fn self max (gen_kwargs g))) as [e|].
      * intros [= <- <-]. eexists [_]. simpl.
        split_and!; try done; [repeat constructor; eauto | set_solver].
      * unfold ret. intros Hrest.
        destruct (IH _ _ _ _ Hrest)
          as (writes & Hio & Hwrites & Hdir & Hper & Hinfo & Hsize & Hfs).
        simpl in *. eexists (_ :: writes).
        rewrite Hio, <- app_assoc. simpl.
        split_and!; try done; [constructor; eauto | set_solver].
    + intros [= <- <-]. exists []. rewrite app_nil_r. by split_and!.
Qed.

(** The loop on units that neither declare the reserved alias nor fail. *)
Lemma generate_splits_ok max split_generators : ∀ split_dict w,
  Forall (λ g, Forall (λ s, split_name s ≠ ALL) (split_info_list g))
    split_generators →
  Forall (λ g, raises (generator_fn self max (gen_kwargs g)) = None)
    split_generators →
  ∃ w',
    generate_splits self max split_generators split_dict w
    = (Ok (foldl (λ d s, <[split_name s := s]> d) split_dict
             (flat_map split_info_list split_generators)), w')
    ∧ io w' = io w ++
        ((λ g, WriteFromGenerator
                 (_build_split_filenames self (_data_dir w) (split_info_list g))
                 (yields (generator_fn self max (gen_kwargs g))))
         <$> split_generators).
Proof.
  induction split_generators as [|g rest IH]; intros split_dict w Hnames Hgens.
  - exists w. by rewrite app_nil_r.
  - apply Forall_cons in Hnames as [Hg Hnames].
    apply Forall_cons in Hgens as [Hnone Hgens].
    rewrite generate_splits_cons. unfold bind at 1.
    destruct (add_split_infos_run (split_info_list g) split_dict w)
      as (r1 & l & -> & Hr1).
    rewrite (Hr1 Hg). unfold bind at 1, get.
    unfold bind at 1, write_from_generator, bind, perform, modify. simpl.
    rewrite Hnone. unfold ret.
    match goal with
    | |- context [generate_splits self max rest ?d ?w1] =>
        destruct (IH d w1 Hnames Hgens) as (w' & -> & Hio)
    end.
    exists w'. rewrite foldl_app. split; [done |].
    rewrite Hio. simpl. by rewrite <- app_assoc.
Qed.

(** The first unit whose generator fails ends the loop. *)
Lemma generate_splits_raise max before unit after e : ∀ split_dict w,
  Forall (λ g, Forall (λ s, split_name s ≠ ALL) (split_info_list g))
    (before ++ [unit]) →
  Forall (λ g, raises (generator_fn self max (gen_kwargs g)) = None) before →
  raises (generator_fn self max (gen_kwargs unit)) = Some e →
  ∃ w',
    generate_splits self max (before ++ unit :: after) split_dict w = (Raise e, w')
    ∧ io w' = io w ++
        ((λ g, WriteFromGenerator
                 (_build_split_filenames self (_data_dir w) (split_info_list g))
                 (yields (generator_fn self max (gen_kwargs g))))
         <$> before ++ [unit]).
Proof.
  induction before as [|g before IH]; intros split_dict w Hnames Hgens Hunit.
  - rewrite app_nil_l in Hnames. apply Forall_cons in Hnames as [Hnames _].
    rewrite app_nil_l, generate_splits_cons.
    unfold bind at 1.
    destruct (add_split_infos_run (split_info_list unit) split_dict w)
      as (r1 & l & -> & Hr1).
    rewrite (Hr1 Hnames). unfold bind at 1, get.
    unfold bind at 1, write_from_generator, bind, perform, modify. simpl.
    rewrite Hunit. by eexists.
  - rewrite <- app_comm_cons in Hnames.
    apply Forall_cons in Hnames as [Hg Hnames].
    apply Forall_cons in Hgens as [Hnone Hgens].
    rewrite <- app_comm_cons, generate_splits_cons. unfold bind at 1.
    destruct (add_split_infos_run (split_info_list g) split_dict w)
      as (r1 & l & -> & Hr1).
    rewrite (Hr1 Hg). unfold bind at 1, get.
    unfold bind at 1, write_from_generator, bind, perform, modify. simpl.
    rewrite Hnone. unfold ret.
    match goal with
    | |- context [generate_splits self max _ ?d ?w1] =>
        destruct (IH d w1 Hnames Hgens Hunit) as (w' & -> & Hio)
    end.
    exists w'. split; [done |].
    rewrite Hio. simpl. by rewrite <- app_assoc.
Qed.

(** The steps of [_download_and_prepare] before the loop. *)
Lemma download_and_prepare_start dl_manager max w :
  ∃ l,
    _download_and_prepare self dl_manager max w
    = let w1 := set_log l w in
      let w2 := if gfile_exists (fs w) (_data_dir w) then w1
                else set_fs (fs_makedirs (fs w) (_data_dir w))
                       (set_io (io w ++ [Makedirs (_data_dir w)]) w1) in
      match _split_generators self dl_manager with
      | Ok generators =>
          match generate_splits self max generators.1 ∅
                  (set_downloaded_size (downloaded_size w + generators.2) w2) with
          | (Ok split_dict, w3) => update_splits_if_different split_dict w3
          | (Raise e, w3) => (Raise e, w3)
          end
      | Raise e => (Raise e, w2)
      end.
Proof.
  unfold _download_and_prepare.
  set (warn := match max with
               | Some n => logging (WARNING ("Splits capped at " +:+ str_int n +:+
                                             " examples max."))
               | None => ret tt
               end).
  assert (∃ l, warn w = (Ok tt, set_log l w)) as (l & Hwarn).
  { unfold warn. destruct max; [by eexists |].
    exists (log w). unfold ret. by rewrite world_eta. }
  exists l. unfold bind at 1. rewrite Hwarn. unfold bind at 1, get.
  change (fs (set_log l w)) with (fs w).
  change (_data_dir (set_log l w)) with (_data_dir w).
  destruct (gfile_exists (fs w) (_data_dir w)).
  - unfold bind at 1, ret. unfold bind at 1, lift.
    destruct (_split_generators self dl_manager) as [generators|e]; [|done].
    unfold bind at 1, modify. unfold bind at 1. done.
  - unfold bind at 1, gfile_makedirs, bind, perform, modify, lift. simpl.
    destruct (_split_generators self dl_manager) as [generators|e]; done.
Qed.

(** Whatever its outcome, [_download_and_prepare] creates the data
    directory when it is missing, appends shard writes, and leaves the
    attribute [_data_dir] and the persisted documents alone. *)
Lemma prepare_frame dl_manager max w r w' :
  _download_and_prepare self dl_manager max w = (r, w') →
  ∃ writes,
    io w' = io w
      ++ (if gfile_exists (fs w) (_data_dir w) then [] else [Makedirs (_data_dir w)])
      ++ writes
    ∧ Forall (λ e, ∃ output_files records,
                e = WriteFromGenerator output_files records) writes
    ∧ _data_dir w' = _data_dir w
    ∧ persisted w' = persisted w
    ∧ fs w ⊆ fs w'
    ∧ (is_Ok r = false → info w' = info w).
Proof.
  destruct (download_and_prepare_start dl_manager max w) as (l & ->).
  cbv zeta.
  destruct (_split_generators self dl_manager) as [generators|e].
  - match goal with
    | |- context [generate_splits self max ?gs ∅ ?w2] =>
        destruct (generate_splits self max gs ∅ w2) as [r0 w3] eqn:Hloop
    end.
    destruct (generate_splits_frame _ _ _ _ _ _ Hloop)
      as (writes & Hio & Hwrites & Hdir & Hper & Hinfo & Hsize & Hfs).
    assert (io w3 = io w ++ (if gfile_exists (fs w) (_data_dir w) then []
                             else [Makedirs (_data_dir w)]) ++ writes
            ∧ _data_dir w3 = _data_dir w ∧ persisted w3 = persisted w
            ∧ fs w ⊆ fs w3 ∧ info w3 = info w) as (Hio' & Hdir' & Hper' & Hfs' & Hinfo').
    { rewrite Hio, Hdir, Hper, Hinfo. clear Hloop Hio Hdir Hper Hinfo Hsize.
      destruct (gfile_exists (fs w) (_data_dir w)); simpl in *.
      - by split_and!.
      - rewrite <- app_assoc. split_and!; try done.
        unfold fs_makedirs in Hfs. set_solver. }
    destruct r0 as [split_dict|e]; unfold update_splits_if_different, modify;
      intros [= <- <-]; exists writes; by split_and!.
  - intros [= <- <-]. exists [].
    destruct (gfile_exists (fs w) (_data_dir w)); simpl;
      rewrite ?app_nil_r; split_and!; try done. unfold fs_makedirs. set_solver.
Qed.

(** X16. Whatever its arguments and its outcome, [_download_and_prepare]
    performs one [makedirs] of the data directory when that directory is
    missing, followed by shard writes only; it removes no path, leaves
    [_data_dir] and the persisted metadata alone, and when it fails the
    dataset info is what it was. *)
Theorem prepare_only_adds dl_manager max w :
  ∃ writes,
    io (_download_and_prepare self dl_manager max w).2
    = io w
      ++ (if gfile_exists (fs w) (_data_dir w) then [] else [Makedirs (_data_dir w)])
      ++ writes
    ∧ Forall (λ e, ∃ output_files records,
                e = WriteFromGenerator output_files records) writes
    ∧ _data_dir (_download_and_prepare self dl_manager max w).2 = _data_dir w
    ∧ persisted (_download_and_prepare self dl_manager max w).2 = persisted w
    ∧ fs w ⊆ fs (_download_and_prepare self dl_manager max w).2
    ∧ (is_Ok (_download_and_prepare self dl_manager max w).1 = false →
       info (_download_and_prepare self dl_manager max w).2 = info w).
Proof.
  destruct (_download_and_prepare self dl_manager max w) as [r w'] eqn:Hrun.
  by apply (prepare_frame dl_manager max).
Qed.

(** X17. When no generation unit declares the reserved split name and no
    generator raises, [_download_and_prepare] succeeds: every unit is
    handed to the shard writer once, in the order of
    [_split_generators], with the file names of its splits under the
    data directory; the split dictionary of the dataset info becomes the
    declared splits (the last declaration of a name wins); the version
    and size of the info are kept, and the bytes downloaded are added to
    the running total. *)
Theorem prepare_succeeds dl_manager max w generators downloaded :
  _split_generators self dl_manager = Ok (generators, downloaded) →
  Forall (λ g, Forall (λ s, split_name s ≠ ALL) (split_info_list g)) generators →
  Forall (λ g, raises (generator_fn self max (gen_kwargs g)) = None) generators →
  ∃ w',
    _download_and_prepare self dl_manager max w = (Ok tt, w')
    ∧ io w' = io w
        ++ (if gfile_exists (fs w) (_data_dir w) then [] else [Makedirs (_data_dir w)])
        ++ ((λ g, WriteFromGenerator
                    (_build_split_filenames self (_data_dir w) (split_info_list g))
                    (yields (generator_fn self max (gen_kwargs g))))
            <$> generators)
    ∧ splits (info w')
      = foldl (λ d s, <[split_name s := s]> d) ∅
          (flat_map split_info_list generators)
    ∧ version (info w') = version (info w)
    ∧ size_in_bytes (info w') = size_in_bytes (info w)
    ∧ downloaded_size w' = downloaded_size w + downloaded.
Proof.
  intros Hgens Hnames Hnone.
  destruct (download_and_prepare_start dl_manager max w) as (l & ->).
  cbv zeta. rewrite Hgens. cbn [fst snd].
  match goal with
  | |- context [generate_splits self max generators ∅ ?w2] =>
      destruct (generate_splits_ok max generators ∅ w2 Hnames Hnone)
        as (w3 & Hloop & Hio);
      pose proof (generate_splits_frame _ _ _ _ _ _ Hloop)
        as (writes & _ & _ & Hdir & Hper & Hinfo & Hsize & Hfs);
      rewrite Hloop
  end.
  eexists. split; [done |].
  unfold update_splits_if_different, modify.
  cbn [fst snd io info set_info splits version size_in_bytes downloaded_size].
  rewrite Hio, Hinfo, Hsize.
  destruct (gfile_exists (fs w) (_data_dir w)); simpl;
    rewrite <- ?app_assoc; by split_and!.
Qed.

(** X18. When the generator of a unit raises, [_download_and_prepare]
    fails with that error: the units before it and the failing unit were
    handed to the shard writer, the units after it are not, and the
    dataset info is not updated. *)
Theorem generator_error_aborts dl_manager max w before unit after downloaded e :
  _split_generators self dl_manager = Ok (before ++ unit :: after, downloaded) →
  Forall (λ g, Forall (λ s, split_name s ≠ ALL) (split_info_list g))
    (before ++ [unit]) →
  Forall (λ g, raises (generator_fn self max (gen_kwargs g)) = None) before →
  raises (generator_fn self max (gen_kwargs unit)) = Some e →
  ∃ w',
    _download_and_prepare self dl_manager max w = (Raise e, w')
    ∧ io w' = io w
        ++ (if gfile_exists (fs w) (_data_dir w) then [] else [Makedirs (_data_dir w)])
        ++ ((λ g, WriteFromGenerator
                    (_build_split_filenames self (_data_dir w) (split_info_list g))
                    (yields (generator_fn self max (gen_kwargs g))))
            <$> before ++ [unit])
    ∧ info w' = info w.
Proof.
  intros Hgens Hnames Hnone Hunit.
  destruct (download_and_prepare_start dl_manager max w) as (l & ->).
  cbv zeta. rewrite Hgens. cbn [fst snd].
  match goal with
  | |- context [generate_splits self max _ ∅ ?w2] =>
      destruct (generate_splits_raise max before unit after e ∅ w2
                  Hnames Hnone Hunit) as (w3 & Hloop & Hio);
      pose proof (generate_splits_frame _ _ _ _ _ _ Hloop)
        as (writes & _ & _ & Hdir & Hper & Hinfo & Hsize & Hfs);
      rewrite Hloop
  end.
  eexists. split; [done |]. rewrite Hio, Hinfo.
  destruct (gfile_exists (fs w) (_data_dir w)); simpl;
    rewrite <- ?app_assoc; by split_and!.
Qed.




Local Ltac world_simpl :=
  cbn [fst snd set_fs set_persisted set_log set_io set_data_dir set_info
       set_downloaded_size fs persisted log io _data_dir info downloaded_size
       version splits size_in_bytes].

Local Tactic Notation "world_simpl" "in" hyp(H) :=
  cbn [fst snd set_fs set_persisted set_log set_io set_data_dir set_info
       set_downloaded_size fs persisted log io _data_dir info downloaded_size
       version splits size_in_bytes] in H.

(** X20. A build that succeeds on a missing data directory first creates
    the temporary directory, then only creates directories, writes
    shards and computes statistics, then writes the metadata into the
    temporary directory, and renames it to the data directory as its
    last operation. The metadata persisted under the data directory is
    the dataset info the builder ends with, and its size is the number
    of bytes downloaded. *)
Theorem build_renames_last download_dir download_config w w' :
  gfile_exists (fs w) (_data_dir w) = false →
  download_and_prepare self download_dir download_config w = (Ok tt, w') →
  ∃ steps,
    io w' = io w
      ++ [Makedirs (get_incomplete_path self (_data_dir w))]
      ++ steps
      ++ [WriteToDirectory (get_incomplete_path self (_data_dir w));
          Rename (get_incomplete_path self (_data_dir w)) (_data_dir w)]
    ∧ Forall (λ e, match e with
                   | Makedirs _ | WriteFromGenerator _ _
                   | ComputeDynamicProperties => True
                   | _ => False
                   end) steps
    ∧ persisted w' !! _data_dir w = Some (info w')
    ∧ size_in_bytes (info w') = downloaded_size w'.
Proof.
  intros Hexists. unfold download_and_prepare, bind at 1, get.
  rewrite Hexists. cbn [andb].
  unfold bind at 1, logging, modify. unfold bind at 1, _log_download_bytes.
  unfold bind at 1, get, logging, modify.
  unfold incomplete_dir, bind at 1, gfile_makedirs. unfold bind at 1, perform, modify.
  cbn [set_log set_io set_fs fs persisted log io _data_dir info downloaded_size].
  unfold temporary_assignment.
  cbn [set_data_dir fs persisted log io _data_dir info downloaded_size].
  unfold bind at 1.
  match goal with
  | |- context [_download_and_prepare self ?dm ?max ?w0] =>
      destruct (_download_and_prepare self dm max w0) as [r1 w1] eqn:Hprep;
      destruct (prepare_frame _ _ _ _ _ Hprep)
        as (writes & Hio & Hwrites & Hdir & Hper & Hfs & _)
  end.
  world_simpl in Hio. world_simpl in Hdir. world_simpl in Hper. clear Hprep Hfs.
  destruct r1 as [[]|e].
  - unfold bind at 1, get.
    set (stats := bool_decide _ || _). 
    destruct stats.
    + unfold bind at 1, logging, modify. unfold bind at 1, modify.
      unfold bind at 1, get, write_to_directory, bind, perform, modify.
      unfold gfile_rename, bind, perform, modify.
      world_simpl. rewrite Hdir, lookup_insert_eq.
      intros [= <-]. world_simpl.
      exists ((if gfile_exists (fs_makedirs (fs w) (get_incomplete_path self (_data_dir w)))
                    (get_incomplete_path self (_data_dir w))
               then [] else [Makedirs (get_incomplete_path self (_data_dir w))])
              ++ writes).
      rewrite Hio, lookup_insert_eq.
      split_and!; [by rewrite <- !app_assoc | | done | done].
      apply Forall_app. split.
      * destruct (gfile_exists (fs_makedirs _ _) _); [constructor | by constructor].
      * eapply Forall_impl; [done |]. by intros ? (? & ? & ->).
    + unfold bind at 1, logging, modify, compute_dynamic_properties, bind, perform,
        modify.
      unfold get, write_to_directory, bind, perform, modify.
      unfold gfile_rename, bind, perform, modify.
      world_simpl. rewrite Hdir, lookup_insert_eq.
      intros [= <-]. world_simpl.
      exists ((if gfile_exists (fs_makedirs (fs w) (get_incomplete_path self (_data_dir w)))
                    (get_incomplete_path self (_data_dir w))
               then [] else [Makedirs (get_incomplete_path self (_data_dir w))])
              ++ writes ++ [ComputeDynamicProperties]).
      rewrite Hio, lookup_insert_eq.
      split_and!; [by rewrite <- !app_assoc | | done | done].
      apply Forall_app. split.
      * destruct (gfile_exists (fs_makedirs _ _) _); [constructor | by constructor].
      * apply Forall_app. split; [| by repeat constructor].
        eapply Forall_impl; [done |]. by intros ? (? & ? & ->).
  - cbv beta iota zeta. by destruct (gfile_exists (fs _) (get_incomplete_path _ _)).
Qed.

(** X21. A build that fails on a missing data directory never renames
    and never writes metadata: it only creates directories, writes
    shards and removes the temporary directory. The temporary directory
    does not exist afterwards, the persisted metadata of every other
    directory is untouched, and the dataset info is what it was. *)
Theorem failed_build_not_promoted download_dir download_config w e w' :
  gfile_exists (fs w) (_data_dir w) = false →
  download_and_prepare self download_dir download_config w = (Raise e, w') →
  info w' = info w
  ∧ gfile_exists (fs w') (get_incomplete_path self (_data_dir w)) = false
  ∧ (∀ dir, dir ≠ get_incomplete_path self (_data_dir w) →
       persisted w' !! dir = persisted w !! dir)
  ∧ ∃ steps,
      io w' = io w ++ [Makedirs (get_incomplete_path self (_data_dir w))] ++ steps
      ∧ Forall (λ e, match e with
                     | Makedirs _ | WriteFromGenerator _ _ | Rmtree _ => True
                     | _ => False
                     end) steps.
Proof.
  intros Hexists. unfold download_and_prepare, bind at 1, get.
  rewrite Hexists. cbn [andb].
  unfold bind at 1, logging, modify. unfold bind at 1, _log_download_bytes.
  unfold bind at 1, get, logging, modify.
  unfold incomplete_dir, bind at 1, gfile_makedirs. unfold bind at 1, perform, modify.
  cbn [set_log set_io set_fs fs persisted log io _data_dir info downloaded_size].
  unfold temporary_assignment.
  cbn [set_data_dir fs persisted log io _data_dir info downloaded_size].
  unfold bind at 1.
  match goal with
  | |- context [_download_and_prepare self ?dm ?max ?w0] =>
      destruct (_download_and_prepare self dm max w0) as [r1 w1] eqn:Hprep;
      destruct (prepare_frame _ _ _ _ _ Hprep)
        as (writes & Hio & Hwrites & Hdir & Hper & Hfs & Hinfo)
  end.
  world_simpl in Hio. world_simpl in Hdir. world_simpl in Hper.
  world_simpl in Hinfo. clear Hprep Hfs.
  destruct r1 as [[]|e1].
  - unfold bind at 1, get.
    set (stats := bool_decide _ || _).
    destruct stats.
    + unfold bind at 1, logging, modify. unfold bind at 1, modify.
      unfold bind at 1, get, write_to_directory, bind, perform, modify.
      unfold gfile_rename, bind, perform, modify. by world_simpl.
    + unfold bind at 1, logging, modify, compute_dynamic_properties, bind, perform,
        modify.
      unfold get, write_to_directory, bind, perform, modify.
      unfold gfile_rename, bind, perform, modify. by world_simpl.
  - cbv beta iota zeta. world_simpl. specialize (Hinfo eq_refl).
    set (tmp := get_incomplete_path self (_data_dir w)) in *.
    destruct (gfile_exists (fs w1) tmp) eqn:Htmp; intros [= <- <-].
    + unfold gfile_rmtree, bind, perform, modify. world_simpl.
      split_and!; [done | | |].
      * apply bool_decide_eq_false. unfold fs_rmtree.
        intros [Hin _]%elem_of_filter. unfold inside in Hin.
        by rewrite bool_decide_eq_true_2 in Hin.
      * intros dir Hne. by rewrite lookup_delete_ne, Hper.
      * exists ((if gfile_exists (fs_makedirs (fs w) tmp) tmp then []
                 else [Makedirs tmp]) ++ writes ++ [Rmtree tmp]).
        split; [by rewrite Hio, <- !app_assoc |].
        apply Forall_app. split.
        -- destruct (gfile_exists (fs_makedirs _ _) _); [constructor | by constructor].
        -- apply Forall_app. split; [| by constructor].
           eapply Forall_impl; [done |]. by intros ? (? & ? & ->).
    + world_simpl.
      split_and!; [done | done | by intros dir _; rewrite Hper |].
      exists ((if gfile_exists (fs_makedirs (fs w) tmp) tmp then []
               else [Makedirs tmp]) ++ writes).
      split; [by rewrite Hio, <- !app_assoc |].
      apply Forall_app. split.
      * destruct (gfile_exists (fs_makedirs _ _) _); [constructor | by constructor].
      * eapply Forall_impl; [done |]. by intros ? (? & ? & ->).
Qed.

Lemma append_empty_r (s : string) : s +:+ EmptyString = s.
Proof. induction s as [|a s IH]; [done |]. rewrite append_cons. by f_equal. Qed.

Lemma strip_prefix_refl (s : string) : strip_prefix s s = Some EmptyString.
Proof.
  induction s as [|a s IH]; [done |]. simpl. by rewrite Ascii.eqb_refl.
Qed.

(** [makedirs] creates the directory it is given. *)
Lemma path_prefixes_self (s : string) : ∀ pre : string,
  pre +:+ s ≠ EmptyString → pre +:+ s ∈ path_prefixes pre s.
Proof.
  induction s as [|a s IH]; intros pre Hne.
  - rewrite append_empty_r in *. simpl. destruct pre; [done | left].
  - simpl. destruct (Ascii.eqb_spec a "/"%char) as [->|_].
    + destruct pre as [|b pre].
      * rewrite append_nil. apply (IH "/"%string). by rewrite append_cons.
      * right.
        replace (String b pre +:+ String "/" s)
          with ((String b pre +:+ "/") +:+ s) by (by rewrite append_String_assoc).
        apply IH. by rewrite append_cons.
    + replace (pre +:+ String a s) with ((pre +:+ String a EmptyString) +:+ s)
        by (by rewrite append_String_assoc).
      apply IH. destruct pre; [by rewrite append_nil | by rewrite !append_cons].
Qed.

Lemma makedirs_exists (files : FS) (path : string) :
  path ≠ EmptyString → path ∈ fs_makedirs files path.
Proof.
  intros Hne. unfold fs_makedirs. apply elem_of_union_l, elem_of_list_to_set.
  by apply (path_prefixes_self path EmptyString).
Qed.

Lemma rename_exists (files : FS) (src dst : string) :
  src ∈ files → dst ∈ fs_rename files src dst.
Proof.
  intros Hin. unfold fs_rename. apply elem_of_map. exists src. split; [|done].
  unfold moved, inside. rewrite strip_prefix_refl.
  rewrite bool_decide_eq_true_2 by done. simpl. by rewrite append_empty_r.
Qed.

(** X22. After a successful build the data directory exists, so a
    further call of [download_and_prepare] under the mode
    [REUSE_DATASET_IF_EXISTS] succeeds without any operation on the
    storage and without changing the dataset info. *)
Theorem build_then_reuse download_dir download_config w w' :
  gfile_exists (fs w) (_data_dir w) = false →
  get_incomplete_path self (_data_dir w) ≠ EmptyString →
  download_and_prepare self download_dir download_config w = (Ok tt, w') →
  gfile_exists (fs w') (_data_dir w') = true
  ∧ ∀ download_dir' download_config',
      download_mode (default (default_DownloadConfig self) download_config')
      = REUSE_DATASET_IF_EXISTS →
      (download_and_prepare self download_dir' download_config' w').1 = Ok tt
      ∧ io (download_and_prepare self download_dir' download_config' w').2 = io w'
      ∧ fs (download_and_prepare self download_dir' download_config' w').2 = fs w'
      ∧ info (download_and_prepare self download_dir' download_config' w').2
        = info w'.
Proof.
  intros Hexists Htmp Hrun.
  assert (gfile_exists (fs w') (_data_dir w') = true) as Hbuilt.
  { revert Hrun. unfold download_and_prepare, bind at 1, get.
    rewrite Hexists. cbn [andb].
    unfold bind at 1, logging, modify. unfold bind at 1, _log_download_bytes.
    unfold bind at 1, get, logging, modify.
    unfold incomplete_dir, bind at 1, gfile_makedirs.
    unfold bind at 1, perform, modify.
    cbn [set_log set_io set_fs fs persisted log io _data_dir info downloaded_size].
    unfold temporary_assignment.
    cbn [set_data_dir fs persisted log io _data_dir info downloaded_size].
    unfold bind at 1.
    match goal with
    | |- context [_download_and_prepare self ?dm ?max ?w0] =>
        destruct (_download_and_prepare self dm max w0) as [r1 w1] eqn:Hprep;
        destruct (prepare_frame _ _ _ _ _ Hprep)
          as (writes & _ & _ & _ & _ & Hfs & _)
    end.
    world_simpl in Hfs. clear Hprep.
    assert (_data_dir w ∈ fs_rename (fs w1) (get_incomplete_path self (_data_dir w))
                            (_data_dir w)) as Hin.
    { apply rename_exists, Hfs. by apply makedirs_exists. }
    destruct r1 as [[]|e1].
    - unfold bind at 1, get.
      set (stats := bool_decide _ || _).
      destruct stats.
      + unfold bind at 1, logging, modify. unfold bind at 1, modify.
        unfold bind at 1, get, write_to_directory, bind, perform, modify.
        unfold gfile_rename, bind, perform, modify. world_simpl.
        intros [= <-]. world_simpl. by apply bool_decide_eq_true.
      + unfold bind at 1, logging, modify, compute_dynamic_properties, bind,
          perform, modify.
        unfold get, write_to_directory, bind, perform, modify.
        unfold gfile_rename, bind, perform, modify. world_simpl.
        intros [= <-]. world_simpl. by apply bool_decide_eq_true.
    - cbv beta iota zeta. world_simpl.
      by destruct (gfile_exists (fs w1) (get_incomplete_path _ _)). }
  split; [done |]. intros download_dir' download_config' Hmode.
  unfold download_and_prepare, bind, get. rewrite Hbuilt, Hmode.
  by rewrite bool_decide_eq_true_2.
Qed.

End build_facts.

Section build_examples.
Import dataset_builder.

Lemma prepare_succeeds_mnist :
  ∃ w',
    _download_and_prepare examples.mnist_2 examples.dl_manager None
      examples.opened_2 = (Ok tt, w')
    ∧ splits (info w')
      = foldl (λ d s, <[split_name s := s]> d) ∅
          (flat_map split_info_list examples.train_test).
Proof.
  destruct (prepare_succeeds examples.mnist_2 examples.dl_manager None
              examples.opened_2 examples.train_test 100)
    as (w' & Hrun & _ & Hsplits & _).
  - reflexivity.
  - repeat constructor; simpl; discriminate.
  - repeat constructor.
  - exists w'. split; [exact Hrun | exact Hsplits].
Defined.

Lemma generator_error_aborts_picky :
  ∃ w',
    _download_and_prepare more_examples.picky examples.dl_manager None
      examples.opened_2 = (Raise (ValueError "negative example"), w')
    ∧ info w' = info examples.opened_2.
Proof.
  destruct (generator_error_aborts more_examples.picky examples.dl_manager None
              examples.opened_2
              [ {| split_info_list := [examples.split_of "train"];
                   gen_kwargs := "train.zip" |} ]
              {| split_info_list := [examples.split_of "test"];
                 gen_kwargs := "test.zip" |} [] 100
              (ValueError "negative example"))
    as (w' & Hrun & _ & Hinfo).
  - reflexivity.
  - simpl. repeat constructor; simpl; discriminate.
  - repeat constructor.
  - reflexivity.
  - exists w'. split; [exact Hrun | exact Hinfo].
Defined.

Lemma build_renames_last_mnist :
  persisted (download_and_prepare examples.mnist_2 None None examples.opened_2).2
    !! _data_dir examples.opened_2
  = Some (info (download_and_prepare examples.mnist_2 None None
                  examples.opened_2).2).
Proof.
  destruct (build_renames_last examples.mnist_2 None None examples.opened_2
              (download_and_prepare examples.mnist_2 None None
                 examples.opened_2).2)
    as (steps & _ & _ & Hpersisted & _).
  - vm_compute. reflexivity.
  - vm_compute. reflexivity.
  - exact Hpersisted.
Defined.

Lemma failed_build_not_promoted_picky :
  info (download_and_prepare more_examples.picky None None examples.opened_2).2
  = info examples.opened_2
  ∧ gfile_exists
      (fs (download_and_prepare more_examples.picky None None
             examples.opened_2).2)
      (get_incomplete_path more_examples.picky (_data_dir examples.opened_2))
    = false.
Proof.
  destruct (failed_build_not_promoted more_examples.picky None None
              examples.opened_2 (ValueError "negative example")
              (download_and_prepare more_examples.picky None None
                 examples.opened_2).2)
    as (Hinfo & Htmp & _).
  - vm_compute. reflexivity.
  - vm_compute. reflexivity.
  - split; [exact Hinfo | exact Htmp].
Defined.

Lemma build_then_reuse_mnist :
  gfile_exists
    (fs (download_and_prepare examples.mnist_2 None None examples.opened_2).2)
    (_data_dir (download_and_prepare examples.mnist_2 None None
                  examples.opened_2).2)
  = true.
Proof.
  eapply proj1.
  apply (build_then_reuse examples.mnist_2 None None examples.opened_2
           (download_and_prepare examples.mnist_2 None None examples.opened_2).2).
  - vm_compute. reflexivity.
  - vm_compute. discriminate.
  - vm_compute. reflexivity.
Defined.

End build_examples.

(** ** Builder configurations *)

Section builder_config_facts.
Import dataset_builder builder_config.

Implicit Types (BUILDER_CONFIGS : list ConfigObject) (c p : ConfigObject).
Implicit Types (log : list LogRecord).

Local Abbreviation names l := ((λ config, config_name (attrs config)) <$> l).
Local Abbreviation entries l :=
  ((λ config, (config_name (attrs config), config)) <$> l).

Lemma dict_setitem_fresh {V} (d : list (string * V)) key value :
  key ∉ d.*1 → dict_setitem d key value = d ++ [(key, value)].
Proof.
  induction d as [|[k v] d IH]; simpl; [done |].
  intros [Hne Hnot]%not_elem_of_cons.
  destruct (String.eqb_spec k key) as [->|_]; [done |]. by rewrite IH.
Qed.

Lemma dict_setitem_known {V} (d : list (string * V)) key value :
  key ∈ d.*1 → length (dict_setitem d key value) = length d.
Proof.
  induction d as [|[k v] d IH]; simpl; [by intros ?%elem_of_nil |].
  intros [->|Hin]%elem_of_cons.
  - by rewrite String.eqb_refl.
  - destruct (String.eqb k key); simpl; [done | by rewrite IH].
Qed.

Lemma config_dict_length BUILDER_CONFIGS : ∀ (d : list (string * ConfigObject)),
  (length (foldl (λ d config, dict_setitem d (config_name (attrs config)) config)
             d BUILDER_CONFIGS)
   ≤ length d + length BUILDER_CONFIGS)%nat.
Proof.
  induction BUILDER_CONFIGS as [|c l IH]; intros d; simpl; [lia |].
  etrans; [apply IH |].
  destruct (decide (config_name (attrs c) ∈ d.*1)) as [Hin|Hnot].
  - rewrite dict_setitem_known by done. lia.
  - rewrite dict_setitem_fresh by done. rewrite length_app. simpl. lia.
Qed.

Lemma config_dict_NoDup BUILDER_CONFIGS : ∀ (d : list (string * ConfigObject)),
  NoDup (d.*1 ++ names BUILDER_CONFIGS) →
  foldl (λ d config, dict_setitem d (config_name (attrs config)) config)
    d BUILDER_CONFIGS
  = d ++ entries BUILDER_CONFIGS.
Proof.
  induction BUILDER_CONFIGS as [|c l IH]; intros d Hnodup; simpl.
  - by rewrite app_nil_r.
  - simpl in Hnodup.
    assert (config_name (attrs c) ∉ d.*1) as Hnot.
    { apply NoDup_app in Hnodup as (_ & Hdisj & _). intros Hin.
      apply (Hdisj _ Hin). left. }
    rewrite dict_setitem_fresh by done. rewrite IH.
    + by rewrite <- app_assoc.
    + rewrite fmap_app. simpl. by rewrite <- app_assoc.
Qed.

Lemma config_dict_dup BUILDER_CONFIGS : ∀ (d : list (string * ConfigObject)),
  NoDup d.*1 →
  ¬ NoDup (d.*1 ++ names BUILDER_CONFIGS) →
  (length (foldl (λ d config, dict_setitem d (config_name (attrs config)) config)
             d BUILDER_CONFIGS)
   < length d + length BUILDER_CONFIGS)%nat.
Proof.
  induction BUILDER_CONFIGS as [|c l IH]; intros d Hd Hdup; simpl.
  - by rewrite app_nil_r in Hdup.
  - destruct (decide (config_name (attrs c) ∈ d.*1)) as [Hin|Hnot].
    + pose proof (config_dict_length l
                    (dict_setitem d (config_name (attrs c)) c)) as Hle.
      rewrite dict_setitem_known in Hle by done. lia.
    + rewrite dict_setitem_fresh by done.
      pose proof (IH (d ++ [(config_name (attrs c), c)])) as Hlt.
      rewrite fmap_app, length_app in Hlt. simpl in Hlt.
      rewrite <- app_assoc in Hlt. simpl in Hlt.
      assert (NoDup (d.*1 ++ [config_name (attrs c)])) as Hd'.
      { apply NoDup_app. split_and!; [done | | apply NoDup_singleton].
        intros k Hk ->%list_elem_of_singleton. done. }
      specialize (Hlt Hd' Hdup). lia.
Qed.

(** X23. The class property [builder_configs] maps every name to its
    configuration, in the order of [BUILDER_CONFIGS], when the names are
    pairwise distinct; otherwise it raises the [ValueError] that lists
    the names. *)
Theorem builder_configs_unique_names BUILDER_CONFIGS :
  (NoDup (names BUILDER_CONFIGS) →
   builder_configs BUILDER_CONFIGS = Ok (entries BUILDER_CONFIGS))
  ∧ (¬ NoDup (names BUILDER_CONFIGS) →
     builder_configs BUILDER_CONFIGS
     = Raise (ValueError (duplicated_names_msg (names BUILDER_CONFIGS)))).
Proof.
  unfold builder_configs. split; intros Hnames.
  - rewrite (config_dict_NoDup BUILDER_CONFIGS []) by done.
    rewrite app_nil_l, length_fmap. by case_bool_decide.
  - pose proof (config_dict_dup BUILDER_CONFIGS [] (NoDup_nil_2) Hnames) as Hlt.
    simpl in Hlt. case_bool_decide as Hlen; [done | lia].
Qed.

Lemma builder_configs_Ok BUILDER_CONFIGS configs :
  builder_configs BUILDER_CONFIGS = Ok configs →
  NoDup (names BUILDER_CONFIGS) ∧ configs = entries BUILDER_CONFIGS.
Proof.
  unfold builder_configs. case_bool_decide as Hlen; [done |].
  intros [= <-].
  destruct (decide (NoDup (names BUILDER_CONFIGS))) as [Hnodup|Hdup].
  - split; [done |]. by rewrite (config_dict_NoDup BUILDER_CONFIGS []).
  - pose proof (config_dict_dup BUILDER_CONFIGS [] (NoDup_nil_2) Hdup) as Hlt.
    simpl in Hlt. lia.
Qed.

Lemma builder_configs_run BUILDER_CONFIGS :
  NoDup (names BUILDER_CONFIGS) →
  builder_configs BUILDER_CONFIGS = Ok (entries BUILDER_CONFIGS).
Proof.
  intros Hnames. unfold builder_configs.
  rewrite (config_dict_NoDup BUILDER_CONFIGS []) by done.
  rewrite app_nil_l, length_fmap. by case_bool_decide.
Qed.

Lemma dict_getitem_entries_None BUILDER_CONFIGS key :
  dict_getitem (entries BUILDER_CONFIGS) key = None ↔ key ∉ (names BUILDER_CONFIGS).
Proof.
  induction BUILDER_CONFIGS as [|c l IH]; simpl.
  - split; [intros _; apply not_elem_of_nil | done].
  - rewrite not_elem_of_cons.
    destruct (String.eqb_spec (config_name (attrs c)) key) as [Heq|Hne].
    + split; [done | by intros [? _]].
    + rewrite IH. split; [by intros ? | by intros [_ ?]].
Qed.

Lemma dict_getitem_entries_Some BUILDER_CONFIGS key p :
  dict_getitem (entries BUILDER_CONFIGS) key = Some p →
  p ∈ BUILDER_CONFIGS ∧ config_name (attrs p) = key.
Proof.
  induction BUILDER_CONFIGS as [|c l IH]; simpl; [done |].
  destruct (String.eqb_spec (config_name (attrs c)) key) as [Heq|Hne].
  - intros [= <-]. split; [left | done].
  - intros [Hin Hname]%IH. split; [by right | done].
Qed.

Lemma dict_getitem_entries_elem BUILDER_CONFIGS p :
  NoDup (names BUILDER_CONFIGS) → p ∈ BUILDER_CONFIGS →
  dict_getitem (entries BUILDER_CONFIGS) (config_name (attrs p)) = Some p.
Proof.
  induction BUILDER_CONFIGS as [|c l IH]; simpl; [by intros _ ?%elem_of_nil |].
  intros [Hc Hl]%NoDup_cons [->|Hin]%elem_of_cons.
  - by rewrite String.eqb_refl.
  - destruct (String.eqb_spec (config_name (attrs c)) (config_name (attrs p)))
      as [Heq|_]; [|by apply IH].
    destruct Hc. rewrite Heq.
    by apply (list_elem_of_fmap_2 (λ config, config_name (attrs config))).
Qed.

Lemma entries_keys BUILDER_CONFIGS :
  (entries BUILDER_CONFIGS).*1 = names BUILDER_CONFIGS.
Proof. by rewrite <- list_fmap_compose. Qed.

(** What the validation of an instance answers. *)
Lemma validate_run BUILDER_CONFIGS c log :
  NoDup (names BUILDER_CONFIGS) →
  config_name (attrs c) ≠ EmptyString →
  validate_builder_config BUILDER_CONFIGS c log
  = match dict_getitem (entries BUILDER_CONFIGS) (config_name (attrs c)) with
    | None =>
        (Ok (Some c),
         log ++ [WARNING ("Using custom data configuration " +:+
                          config_name (attrs c))])
    | Some predefined =>
        if bool_decide (ident c ≠ ident predefined)
        then (Raise (ValueError (same_name_msg (names BUILDER_CONFIGS))), log)
        else if negb (has_version (attrs c))
        then (Raise (ValueError ("BuilderConfig " +:+ config_name (attrs c) +:+
                                 " must have a version")), log)
        else if negb (has_description (attrs c))
        then (Raise (ValueError ("BuilderConfig " +:+ config_name (attrs c) +:+
                                 " must have a description")), log)
        else (Ok (Some c), log)
    end.
Proof.
  intros Hnodup Hname. unfold validate_builder_config.
  case_bool_decide; [done |].
  unfold bind, lift. rewrite (builder_configs_run _ Hnodup), entries_keys.
  destruct (dict_getitem _ _) as [predefined|]; [|done].
  unfold raise, ret. by repeat case_match.
Qed.

(** Validation answers with the configuration it was given, or raises. *)
Lemma validate_Some BUILDER_CONFIGS c log r log' :
  validate_builder_config BUILDER_CONFIGS c log = (Ok r, log') →
  r = Some c
  ∧ config_name (attrs c) ≠ EmptyString
  ∧ NoDup (names BUILDER_CONFIGS)
  ∧ (((config_name (attrs c) ∉ names BUILDER_CONFIGS)
      ∧ log' = log ++ [WARNING ("Using custom data configuration " +:+
                                config_name (attrs c))])
     ∨ (log' = log
        ∧ has_version (attrs c) = true
        ∧ has_description (attrs c) = true
        ∧ ∃ p, p ∈ BUILDER_CONFIGS
               ∧ config_name (attrs p) = config_name (attrs c)
               ∧ ident p = ident c)).
Proof.
  unfold validate_builder_config.
  case_bool_decide as Hname; [done |].
  unfold bind at 1, lift.
  destruct (builder_configs BUILDER_CONFIGS) as [configs|e] eqn:Hconfigs; [|done].
  apply builder_configs_Ok in Hconfigs as [Hnodup ->].
  destruct (dict_getitem _ _) as [p|] eqn:Hget.
  - apply dict_getitem_entries_Some in Hget as [Hin Hp].
    case_bool_decide as Hident; [done |].
    destruct (has_version (attrs c)); [|done].
    destruct (has_description (attrs c)); [|done].
    intros [= <- <-]. split_and!; try done. right. split_and!; try done.
    by exists p.
  - apply dict_getitem_entries_None in Hget.
    unfold bind, modify, ret. intros [= <- <-]. split_and!; try done. by left.
Qed.

(** The function on a name. *)
Lemma create_by_name name BUILDER_CONFIGS config log :
  _create_builder_config name BUILDER_CONFIGS (ArgName config) log
  = match config with
    | EmptyString => (Ok None, log)
    | _ =>
        match builder_configs BUILDER_CONFIGS with
        | Ok configs =>
            match dict_getitem configs config with
            | None => (Raise (ValueError (not_found_msg config configs.*1)), log)
            | Some builder_config =>
                validate_builder_config BUILDER_CONFIGS builder_config log
            end
        | Raise e => (Raise e, log)
        end
    end.
Proof.
  unfold _create_builder_config.
  assert (∀ m : M (list LogRecord) ConfigArg,
            m = ret (ArgName config) →
            bind m
              (λ builder_config : ConfigArg,
                 match builder_config with
                 | ArgNone => ret None
                 | ArgName EmptyString => ret None
                 | ArgName config =>
                     let* configs := lift (builder_configs BUILDER_CONFIGS) in
                     match dict_getitem configs config with
                     | None => raise (ValueError (not_found_msg config configs.*1))
                     | Some builder_config =>
                         validate_builder_config BUILDER_CONFIGS builder_config
                     end
                 | ArgConfig builder_config =>
                     validate_builder_config BUILDER_CONFIGS builder_config
                 end) log
            = match config with
              | EmptyString => (Ok None, log)
              | _ =>
                  match builder_configs BUILDER_CONFIGS with
                  | Ok configs =>
                      match dict_getitem configs config with
                      | None =>
                          (Raise (ValueError (not_found_msg config configs.*1)), log)
                      | Some builder_config =>
                          validate_builder_config BUILDER_CONFIGS builder_config log
                      end
                  | Raise e => (Raise e, log)
                  end
              end) as Hname.
  { intros m ->. destruct config; [done |]. unfold bind, ret, lift.
    destruct (builder_configs BUILDER_CONFIGS) as [configs|e]; [|done].
    by destruct (dict_getitem configs (String a config)). }
  apply Hname. by destruct BUILDER_CONFIGS.
Qed.

(** The function on an instance. *)
Lemma create_by_instance name BUILDER_CONFIGS c log :
  _create_builder_config name BUILDER_CONFIGS (ArgConfig c) log
  = validate_builder_config BUILDER_CONFIGS c log.
Proof. unfold _create_builder_config. by destruct BUILDER_CONFIGS. Qed.

(** X24. A configuration returned by [_create_builder_config] has a
    non-empty name, the names of [BUILDER_CONFIGS] are pairwise
    distinct, and either the name is none of the pre-defined ones, or
    the configuration is the pre-defined instance of that name and has
    a version and a description. *)
Theorem created_config_is_valid name BUILDER_CONFIGS builder_config log c log' :
  _create_builder_config name BUILDER_CONFIGS builder_config log
  = (Ok (Some c), log') →
  config_name (attrs c) ≠ EmptyString
  ∧ NoDup (names BUILDER_CONFIGS)
  ∧ ((config_name (attrs c) ∉ names BUILDER_CONFIGS)
     ∨ (has_version (attrs c) = true
        ∧ has_description (attrs c) = true
        ∧ ∃ p, p ∈ BUILDER_CONFIGS
               ∧ config_name (attrs p) = config_name (attrs c)
               ∧ ident p = ident c)).
Proof.
  assert (∀ c0 l,
            validate_builder_config BUILDER_CONFIGS c0 l = (Ok (Some c), log') →
            config_name (attrs c) ≠ EmptyString
            ∧ NoDup (names BUILDER_CONFIGS)
            ∧ ((config_name (attrs c) ∉ names BUILDER_CONFIGS)
               ∨ (has_version (attrs c) = true
                  ∧ has_description (attrs c) = true
                  ∧ ∃ p, p ∈ BUILDER_CONFIGS
                         ∧ config_name (attrs p) = config_name (attrs c)
                         ∧ ident p = ident c))) as Hvalid.
  { intros c0 l ([= ->] & Hname & Hnodup & Hcases)%validate_Some.
    split_and!; try done. destruct Hcases as [[? _]|(_ & ? & ? & ?)]; eauto. }
  destruct builder_config as [|config|c0].
  - unfold _create_builder_config.
    destruct BUILDER_CONFIGS as [|first rest] eqn:Hlist; [done |].
    rewrite <- Hlist in *. unfold bind, modify, ret. apply Hvalid.
  - rewrite create_by_name. destruct config; [done |].
    destruct (builder_configs _) as [configs|e]; [|done].
    destruct (dict_getitem _ _) as [c1|]; [|done]. apply Hvalid.
  - rewrite create_by_instance. apply Hvalid.
Qed.

Lemma validate_not_None BUILDER_CONFIGS c log :
  (validate_builder_config BUILDER_CONFIGS c log).1 ≠ Ok None.
Proof.
  destruct (validate_builder_config BUILDER_CONFIGS c log) as [[r|e] log'] eqn:Hrun;
    [|done].
  by apply validate_Some in Hrun as [-> _].
Qed.

(** X25. [_create_builder_config] returns no configuration in two cases
    only: no argument and no pre-defined configuration, or the empty
    string as a name. Every other call returns a configuration or
    raises. *)
Theorem no_config_selected name BUILDER_CONFIGS builder_config log :
  (_create_builder_config name BUILDER_CONFIGS builder_config log).1 = Ok None
  ↔ (builder_config = ArgNone ∧ BUILDER_CONFIGS = [])
    ∨ builder_config = ArgName EmptyString.
Proof.
  split.
  - destruct builder_config as [|config|c].
    + destruct BUILDER_CONFIGS as [|first rest] eqn:Hlist; [by left |].
      rewrite <- Hlist. unfold _create_builder_config. rewrite Hlist at 1.
      unfold bind, modify, ret. intros Hnone.
      by apply validate_not_None in Hnone.
    + rewrite create_by_name. destruct config; [by right |].
      destruct (builder_configs BUILDER_CONFIGS) as [configs|e]; [|done].
      destruct (dict_getitem configs _) as [c|]; [|done].
      intros Hnone. by apply validate_not_None in Hnone.
    + rewrite create_by_instance. intros Hnone.
      by apply validate_not_None in Hnone.
  - intros [[-> ->] | ->]; [done |]. by rewrite create_by_name.
Qed.

(** X26. Selecting by a non-empty name, with pairwise distinct
    pre-defined names: an unknown name raises the [ValueError] that
    lists the available names; a known name returns the pre-defined
    configuration of that name, unless it lacks a version or a
    description, which raises. Nothing is logged. *)
Theorem config_by_name name BUILDER_CONFIGS config log :
  config ≠ EmptyString →
  NoDup (names BUILDER_CONFIGS) →
  (config ∉ names BUILDER_CONFIGS →
   _create_builder_config name BUILDER_CONFIGS (ArgName config) log
   = (Raise (ValueError (not_found_msg config (names BUILDER_CONFIGS))), log))
  ∧ (∀ p, p ∈ BUILDER_CONFIGS → config_name (attrs p) = config →
       _create_builder_config name BUILDER_CONFIGS (ArgName config) log
       = if negb (has_version (attrs p))
         then (Raise (ValueError ("BuilderConfig " +:+ config +:+
                                  " must have a version")), log)
         else if negb (has_description (attrs p))
         then (Raise (ValueError ("BuilderConfig " +:+ config +:+
                                  " must have a description")), log)
         else (Ok (Some p), log)).
Proof.
  intros Hconfig Hnodup. rewrite create_by_name.
  destruct config as [|a config]; [done |].
  rewrite (builder_configs_run _ Hnodup), entries_keys. split.
  - intros Hnot. apply dict_getitem_entries_None in Hnot. by rewrite Hnot.
  - intros p Hin Hname. rewrite <- Hname.
    rewrite (dict_getitem_entries_elem _ _ Hnodup Hin).
    rewrite validate_run by (done || by rewrite Hname).
    rewrite (dict_getitem_entries_elem _ _ Hnodup Hin).
    by rewrite bool_decide_eq_false_2 by (by intros ?).
Qed.

(** X27. Passing an instance: one whose name is none of the pre-defined
    names is accepted with a warning, with or without version and
    description; one that carries the name of a pre-defined
    configuration without being that very instance is refused with a
    [ValueError], even when all its attributes are equal. *)
Theorem config_by_instance name BUILDER_CONFIGS c log :
  config_name (attrs c) ≠ EmptyString →
  NoDup (names BUILDER_CONFIGS) →
  (config_name (attrs c) ∉ names BUILDER_CONFIGS →
   _create_builder_config name BUILDER_CONFIGS (ArgConfig c) log
   = (Ok (Some c),
      log ++ [WARNING ("Using custom data configuration " +:+
                       config_name (attrs c))]))
  ∧ (∀ p, p ∈ BUILDER_CONFIGS →
       config_name (attrs p) = config_name (attrs c) →
       ident c ≠ ident p →
       _create_builder_config name BUILDER_CONFIGS (ArgConfig c) log
       = (Raise (ValueError (same_name_msg (names BUILDER_CONFIGS))), log)).
Proof.
  intros Hname Hnodup. rewrite create_by_instance, validate_run by done. split.
  - intros Hnot. apply dict_getitem_entries_None in Hnot. by rewrite Hnot.
  - intros p Hin Hp Hident. rewrite <- Hp.
    rewrite (dict_getitem_entries_elem _ _ Hnodup Hin).
    by rewrite bool_decide_eq_true_2.
Qed.

(** X28. Without an argument, a class with pre-defined configurations
    takes the first of them, logs the choice, and validates it like any
    other: the call fails when the first configuration lacks a version
    or a description. *)
Theorem default_config_is_first name first rest log :
  config_name (attrs first) ≠ EmptyString →
  NoDup (names (first :: rest)) →
  _create_builder_config name (first :: rest) ArgNone log
  = let log' :=
      log ++ [INFO ("No config specified, defaulting to first: " +:+
                    name +:+ "/" +:+ config_name (attrs first))] in
    if negb (has_version (attrs first))
    then (Raise (ValueError ("BuilderConfig " +:+ config_name (attrs first) +:+
                             " must have a version")), log')
    else if negb (has_description (attrs first))
    then (Raise (ValueError ("BuilderConfig " +:+ config_name (attrs first) +:+
                             " must have a description")), log')
    else (Ok (Some first), log').
Proof.
  intros Hname Hnodup. unfold _create_builder_config, bind at 1, modify, ret.
  unfold bind at 1. rewrite validate_run by done.
  rewrite (dict_getitem_entries_elem _ _ Hnodup) by left.
  by rewrite bool_decide_eq_false_2 by (by intros ?).
Qed.

End builder_config_facts.

Section builder_config_examples.
Import dataset_builder builder_config.

Lemma created_config_is_valid_plain_text :
  _create_builder_config "wiki" more_examples.BUILDER_CONFIGS
    (ArgName "plain_text") []
  = (Ok (Some more_examples.plain_text), [])
  ∧ NoDup ((λ config, config_name (attrs config))
             <$> more_examples.BUILDER_CONFIGS).
Proof.
  assert (_create_builder_config "wiki" more_examples.BUILDER_CONFIGS
            (ArgName "plain_text") []
          = (Ok (Some more_examples.plain_text), [])) as Hrun
    by (vm_compute; reflexivity).
  split; [exact Hrun |].
  apply (created_config_is_valid "wiki" more_examples.BUILDER_CONFIGS
           (ArgName "plain_text") [] more_examples.plain_text [] Hrun).
Defined.

Lemma config_by_name_subwords :
  _create_builder_config "wiki" more_examples.BUILDER_CONFIGS
    (ArgName "subwords") []
  = (Raise (ValueError "BuilderConfig subwords must have a description"), []).
Proof.
  refine (proj2 (config_by_name "wiki" more_examples.BUILDER_CONFIGS
                   "subwords" [] _ _) more_examples.subwords _ _).
  - done.
  - apply (bool_decide_unpack _). vm_compute. exact I.
  - right. left.
  - reflexivity.
Defined.

Lemma config_by_instance_copy :
  _create_builder_config "wiki" more_examples.BUILDER_CONFIGS
    (ArgConfig more_examples.plain_text_copy) []
  = (Raise (ValueError
              (same_name_msg ((λ config, config_name (attrs config))
                                <$> more_examples.BUILDER_CONFIGS))), []).
Proof.
  refine (proj2 (config_by_instance "wiki" more_examples.BUILDER_CONFIGS
                   more_examples.plain_text_copy [] _ _)
            more_examples.plain_text _ _ _).
  - done.
  - apply (bool_decide_unpack _). vm_compute. exact I.
  - left.
  - reflexivity.
  - simpl. lia.
Defined.

Lemma default_config_is_first_plain_text :
  _create_builder_config "wiki" more_examples.BUILDER_CONFIGS ArgNone []
  = (Ok (Some more_examples.plain_text),
     [INFO "No config specified, defaulting to first: wiki/plain_text"]).
Proof.
  apply (default_config_is_first "wiki" more_examples.plain_text
           [more_examples.subwords] []).
  - done.
  - apply (bool_decide_unpack _). vm_compute. exact I.
Defined.

End builder_config_examples.

(** ** Reading instructions *)

Section reading_facts.
Import dataset_builder reading.
Context {Example Encoded Kwargs Slice Mask : Type}.
Context (self : Builder Example Encoded Kwargs).
Context (slice_to_percent_mask : Slice → Mask).

Lemma build_split_filenames_app data_dir (l1 l2 : list SplitInfo) :
  _build_split_filenames self data_dir (l1 ++ l2)
  = _build_split_filenames self data_dir l1
    ++ _build_split_filenames self data_dir l2.
Proof. unfold _build_split_filenames. apply flat_map_app. Qed.

(** X29. The file paths of the reading instructions are the split file
    names of the sliced splits, in order: reading resolves a split to
    the very names the build handed to the shard writer for it. Every
    instruction carries the mask of the slice its file belongs to. *)
Theorem instruction_dicts_files data_dir
    (list_sliced_split_info : list (SlicedSplitInfo Slice)) :
  filepath <$> _slice_split_info_to_instruction_dicts self slice_to_percent_mask
                 data_dir list_sliced_split_info
  = _build_split_filenames self data_dir (split_info <$> list_sliced_split_info)
  ∧ Forall (λ instruction,
              ∃ sliced, sliced ∈ list_sliced_split_info
                ∧ mask instruction = slice_to_percent_mask (slice_value sliced)
                ∧ filepath instruction
                  ∈ _build_split_filenames self data_dir [split_info sliced])
      (_slice_split_info_to_instruction_dicts self slice_to_percent_mask
         data_dir list_sliced_split_info).
Proof.
  induction list_sliced_split_info as [|sliced rest [IHfiles IHmask]].
  - split; [done | constructor].
  - unfold _slice_split_info_to_instruction_dicts in *. cbn [flat_map]. split.
    + change (split_info <$> sliced :: rest)
        with ([split_info sliced] ++ (split_info <$> rest)).
      rewrite fmap_app, IHfiles, build_split_filenames_app.
      f_equal. rewrite <- list_fmap_compose. apply list_fmap_id.
    + apply Forall_app. split.
      * apply Forall_fmap, Forall_forall. intros file Hfile. simpl.
        exists sliced. split_and!; [left | done | done].
      * eapply Forall_impl; [exact IHmask |].
        intros instruction (s & Hin & Hmask & Hfile). exists s.
        split_and!; [by right | done | done].
Qed.

End reading_facts.

(** ** The constructor *)

Section constructor_facts.
Import dataset_builder.
Context {Example Encoded Kwargs : Type} (self : Builder Example Encoded Kwargs).

Implicit Types (w : World Encoded).



End constructor_facts.
